(** * bean: panic-safe asynchronous execution and JWT helpers

    A shallow embedding of [async/async.go] ([Execute], [ExecuteWithContext],
    [recoverPanic]) and of [helpers/jwt.go] ([ExtractUserInfoFromJWT],
    [ExtractJWTFromHeader]).

    Go code that panics, defers calls and recovers is written in a state
    monad whose results are either a value or a panic in flight; every
    function call owns a stack of deferred calls that is run, last deferred
    first, when the body ends.  Calls into the collaborators of the package
    (echo, sentry, the logger, the goroutine pools) are recorded as events
    of a trace, one trace per thread of execution. *)

From Stdlib Require Import Floats.
From stdpp Require Import base strings gmap list.

(** ** Go values, panics and deferred calls *)

Module Go.

(** The dynamic value behind a non-nil [error]. *)
Inductive error_value : Type :=
| ErrorString (msg : string)            (* errors.New(msg) *)
| ValidationError (Errors : N).         (* *jwt.ValidationError, Errors uint32 *)

(** A Go [error]: [None] is [nil]. *)
Definition error : Type := option error_value.

Definition errors_New (msg : string) : error := Some (ErrorString msg).

(** What [panic] is called with. *)
Inductive value : Type :=
| VString (s : string)
| VError (e : error_value)
| VRuntime (msg : string).              (* runtime.Error *)

Inductive result (A : Type) : Type :=
| Ok (a : A)
| Panic (v : value).
Arguments Ok {A} a.
Arguments Panic {A} v.

(** Code running against a state [S]. *)
Definition St (S A : Type) : Type := S -> S * result A.

Definition ret {S A} (a : A) : St S A := fun s => (s, Ok a).

Definition bind {S A B} (m : St S A) (k : A -> St S B) : St S B :=
  fun s =>
    match m s with
    | (s', Ok a) => k a s'
    | (s', Panic v) => (s', Panic v)
    end.

Definition panic {S A} (v : value) : St S A := fun s => (s, Panic v).

(** A deferred call: it is told the panic in flight (what [recover()]
    would return) and leaves the panic that is in flight after it. *)
Definition Deferred (S : Type) : Type := option value -> S -> S * option value.

(** The activation of one function: its deferred calls, newest first. *)
Record frame (S : Type) : Type := Frame { stack : list (Deferred S); st : S }.
Arguments Frame {S} stack st.
Arguments stack {S} f.
Arguments st {S} f.

(** [defer d] *)
Definition defer {S} (d : Deferred S) : St (frame S) unit :=
  fun f => (Frame (d :: stack f) (st f), Ok tt).

(** Code of the enclosing state run from inside a function body. *)
Definition lift {S A} (m : St S A) : St (frame S) A :=
  fun f => let '(s', r) := m (st f) in (Frame (stack f) s', r).

Fixpoint run_defers {S} (ds : list (Deferred S)) (p : option value) (s : S)
  : S * option value :=
  match ds with
  | [] => (s, p)
  | d :: ds' => let '(s', p') := d p s in run_defers ds' p' s'
  end.

(** Calling a function without results: the body runs, then its deferred
    calls; the call panics iff a panic is still in flight after them. *)
Definition call {S} (body : St (frame S) unit) : St S unit :=
  fun s =>
    let '(f, r) := body (Frame [] s) in
    let p := match r with Ok _ => None | Panic v => Some v end in
    let '(s', p') := run_defers (stack f) p (st f) in
    (s', match p' with None => Ok tt | Some v => Panic v end).

(** A deferred function that does not call [recover]. *)
Definition plain {S} (m : St S unit) : Deferred S :=
  fun p s =>
    match m s with
    | (s', Ok _) => (s', p)
    | (s', Panic v) => (s', Some v)
    end.

(** A deferred function whose first statement is [recover()]: the panic
    in flight stops, and [m] is given what [recover] returned. *)
Definition recovering {S} (m : option value -> St S unit) : Deferred S :=
  fun p s =>
    match m p s with
    | (s', Ok _) => (s', None)
    | (s', Panic v) => (s', Some v)
    end.

(** Go strings are byte strings; slicing out of range panics. *)
Definition slice_to (s : string) (hi : nat) : result string :=
  if decide (hi <= String.length s) then Ok (String.substring 0 hi s)
  else Panic (VRuntime "slice bounds out of range").

Definition slice_from (s : string) (lo : nat) : result string :=
  if decide (lo <= String.length s) then Ok (String.substring lo (String.length s - lo) s)
  else Panic (VRuntime "slice bounds out of range").

End Go.

Export Go.

Declare Scope go_scope.
Delimit Scope go_scope with go.
Notation "x <- m ;; k" := (bind m (fun x => k))
  (at level 100, m at next level, right associativity) : go_scope.
Notation "m ;; k" := (bind m (fun _ => k))
  (at level 100, right associativity) : go_scope.
Open Scope go_scope.

(** ** net/http and echo *)

Module Echo.

Inductive Hub : Type :=
| CurrentHub                            (* sentry.CurrentHub() *)
| Clone (h : Hub).                     (* hub.Clone() *)

(** A [context.Context], as far as the package looks into it. *)
Inductive context : Type :=
| TODO                                  (* context.TODO() *)
| WithHub (h : Hub) (parent : context)  (* sentry.SetHubOnContext *)
| WithSpan (parent : context).          (* span.Context() *)

Record Request : Type := mkRequest {
  Method : string;
  Path : string;                        (* URL.Path *)
  Header : gmap string (list string);
  Ctx : context                         (* Request.Context() *)
}.

Definition WithContext (r : Request) (ctx : context) : Request :=
  mkRequest (Method r) (Path r) (Header r) ctx.

(** [Header.Get]: the first value of the key, or the empty string. *)
Definition Header_Get (h : gmap string (list string)) (key : string) : string :=
  match h !! key with
  | Some (v :: _) => v
  | _ => EmptyString
  end.

(** An [echo.Context]: the request and the key/value store. *)
Record Context : Type := mkContext {
  request : Request;
  store : list (string * Hub)
}.

(** [c.Reset(r, nil)] *)
Definition Reset (c : Context) (r : Request) : Context := mkContext r [].
(** [c.Set(key, hub)] *)
Definition Set_ (c : Context) (key : string) (h : Hub) : Context :=
  mkContext (request c) ((key, h) :: store c).
(** [c.SetRequest(r)] *)
Definition SetRequest (c : Context) (r : Request) : Context :=
  mkContext r (store c).

End Echo.

Export Echo.

(** ** helpers/jwt.go *)

Module Jwt.

(** Bits of [ValidationError.Errors] (golang-jwt). *)
Definition ValidationErrorMalformed : N := N.shiftl 1 0.
Definition ValidationErrorExpired : N := N.shiftl 1 4.
Definition ValidationErrorNotValidYet : N := N.shiftl 1 7.

Record Token : Type := mkToken { Valid : bool }.

(** [ExtractJWTFromHeader] *)
Definition ExtractJWTFromHeader (c : Context) : result string :=
  let authHeader := Header_Get (Header (request c)) "Authorization" in
  let l := String.length "Bearer" in
  if decide (l + 1 < String.length authHeader) then
    match slice_to authHeader l with
    | Ok p =>
        if String.eqb p "Bearer" then slice_from authHeader (l + 1)
        else Ok EmptyString
    | Panic v => Panic v
    end
  else Ok EmptyString.

Section Parse.

Variable Claims : Type.
(** [jwt.ParseWithClaims(tokenString, claims, keyFunc)], the key
    function returning the configured secret: a token pointer ([None]
    is nil) and an error. *)
Variable ParseWithClaims : string -> Claims -> string -> option Token * error.
(** [viper.GetString("jwt.secret")] *)
Variable jwt_secret : string.

(** [ExtractUserInfoFromJWT] *)
Definition ExtractUserInfoFromJWT (c : Context) (claims : Claims) : result error :=
  match ExtractJWTFromHeader c with
  | Panic v => Panic v
  | Ok tokenString =>
      let '(token, err) := ParseWithClaims tokenString claims jwt_secret in
      match err with
      | Some _ => Ok (errors_New "invalid user token")
      | None =>
          match token with
          | None => Panic (VRuntime "invalid memory address or nil pointer dereference")
          | Some tok =>
              if Valid tok then Ok None
              else
                match err with
                | Some (ValidationError Errors) =>
                    if negb (N.eqb (N.land Errors ValidationErrorMalformed) 0) then
                      Ok (errors_New "invalid user token")
                    else if negb (N.eqb (N.land Errors
                              (N.lor ValidationErrorExpired ValidationErrorNotValidYet)) 0) then
                      Ok (errors_New "token is expired")
                    else Ok (errors_New "invalid user token")
                | _ => Ok (errors_New "invalid user token")
                end
          end
      end
  end.

End Parse.

(** A parser for examples: it accepts exactly the token ["good"], and
    reports every other token as expired. *)
Definition demo_parser (tokenString : string) (claims : unit) (secret : string)
  : option Token * error :=
  if String.eqb tokenString "good" then (Some (mkToken true), None)
  else (Some (mkToken false), Some (ValidationError ValidationErrorExpired)).

Definition demo_request (auth : string) : Context :=
  mkContext (mkRequest "GET" "/" {[ "Authorization" := [auth] ]} TODO) [].

End Jwt.

(** ** async/async.go *)

Module Async.

(** Modelled from the spec: the pool registry ([gopool]) is not part of
    the sources at hand; a pool is resolved by name and its [Submit]
    answers ok or an error.  [Submit_error] is what [pool.Submit] answers
    to the submission under study ([None]: the task is accepted and the
    pool will run it). *)
Record Pool : Type := mkPool { pool_name : string; Submit_error : error }.

(** The calls that leave the package. *)
Inductive event : Type :=
| EvWarnf (poolName : string)                 (* bean.Logger().Warnf(..., poolName[0]) *)
| EvSubmit (poolName : string)                (* pool.Submit(task) *)
| EvAcquireContext                            (* c.Echo().AcquireContext() *)
| EvReleaseContext (ec : Context)             (* ec.Echo().ReleaseContext(ec) *)
| EvHubClone                                  (* sentry.CurrentHub().Clone() *)
| EvScopeSetRequest (h : Hub) (r : Request)   (* hub.Scope().SetRequest(r) *)
| EvScopeSetTag (h : Hub) (key val : string)  (* scope.SetTag(key, val) *)
| EvHubRecover (h : Hub) (err : value)        (* hub.Recover(err) *)
| EvStartSpan (name : string)                 (* sentry.StartSpan(ctx, "http", ...) *)
| EvSpanSampledFalse                          (* span.Sampled = sentry.SampledFalse *)
| EvSpanFinish                                (* span.Finish() *)
| EvLoggerError (err : value)                 (* bean.Logger().Error(err) *)
| EvInvoke                                    (* the unit of work is entered *)
| EvWork (label : string).                    (* an effect of the unit of work *)

Definition trace : Type := list event.

(** States that carry a trace. *)
Class Logs (S : Type) : Type := log : event -> S -> S.

#[export] Instance trace_logs : Logs trace := fun e tr => tr ++ [e].
#[export] Instance frame_logs {S} `{Logs S} : Logs (frame S) :=
  fun e f => Frame (stack f) (log e (st f)).

Definition emit {S} `{Logs S} (e : event) : St S unit := fun s => (log e s, Ok tt).

(** What has been handed over for asynchronous execution. *)
Inductive Dispatched : Type :=
| Goroutine (body : St trace unit)            (* go func() { ... }() *)
| PoolTask (p : Pool) (task : St trace unit). (* a task the pool accepted *)

(** The calling goroutine: its trace and what it has dispatched. *)
Record Sched : Type := mkSched { events : trace; dispatched : list Dispatched }.

#[export] Instance sched_logs : Logs Sched :=
  fun e s => mkSched (events s ++ [e]) (dispatched s).

(** The [go] statement. *)
Definition go (body : St trace unit) : St Sched unit :=
  fun s => (mkSched (events s) (dispatched s ++ [Goroutine body]), Ok tt).

(** [pool.Submit(task)] *)
Definition Submit (p : Pool) (task : St trace unit) : St Sched error :=
  fun s =>
    match Submit_error p with
    | None => (mkSched (events s ++ [EvSubmit (pool_name p)])
                       (dispatched s ++ [PoolTask p task]), Ok None)
    | Some e => (mkSched (events s ++ [EvSubmit (pool_name p)]) (dispatched s),
                 Ok (Some e))
    end.

(** A unit of work as the executor sees it: its effects, in order, and
    whether it returns ([None]) or panics. *)
Record Behaviour : Type := mkBehaviour { effects : list string; finish : option value }.

Fixpoint emit_all {S} `{Logs S} (ls : list string) : St S unit :=
  match ls with
  | [] => ret tt
  | l :: ls' => emit (EvWork l) ;; emit_all ls'
  end.

(** Calling a unit of work. *)
Definition run_work {S} `{Logs S} (b : Behaviour) : St S unit :=
  emit EvInvoke ;;
  emit_all (effects b) ;;
  match finish b with
  | None => ret tt
  | Some v => panic v
  end.

(** [type Task func(c echo.Context)] *)
Definition Task : Type := Context -> Behaviour.

(** [bean.BeanConfig.Sentry] and the viper keys read by the package. *)
Record Config : Type := mkConfig {
  SentryOn : bool;                            (* bean.BeanConfig.Sentry.On *)
  tracesSampleRate : float;                   (* sentry.tracesSampleRate *)
  skipTracesEndpoints : list string           (* sentry.skipTracesEndpoints *)
}.

(** The collaborators of one invocation. *)
Record Env : Type := mkEnv {
  config : Config;
  GetPool : string -> option Pool * error;    (* gopool.GetPool *)
  regexp_Compile : string -> option (string -> bool);
                                              (* [None]: regexp.MustCompile panics;
                                                 [Some re]: re.MatchString *)
  regexp_Compile_error : string -> string;    (* [err.Error()] of regexp.Compile,
                                                 for a pattern it refuses *)
  regexp_quote : string -> string;            (* regexp's [quote]: the pattern in
                                                 back quotes when
                                                 strconv.CanBackquote, else
                                                 strconv.Quote *)
  pooled : Context                            (* what AcquireContext hands out *)
}.

(** Modelled from the spec: [helpers.FloatInRange] is not part of the
    sources at hand; the sampling rate is clamped to the range between
    [min] and [max]. *)
Definition FloatInRange (i min max : float) : float :=
  if PrimFloat.ltb i min then min
  else if PrimFloat.ltb max i then max
  else i.

(** [sentry.GetHubFromContext] *)
Fixpoint GetHubFromContext (ctx : context) : option Hub :=
  match ctx with
  | TODO => None
  | WithHub h _ => Some h
  | WithSpan parent => GetHubFromContext parent
  end.

(** [bean.SentryHubContextKey] *)
Definition SentryHubContextKey : string := "sentry".

Section Executor.

Variable env : Env.

(** [recoverPanic]; [recovered] is what its call of [recover()] returns. *)
Definition recoverPanic {S} `{Logs S} (c : option Context) (recovered : option value)
  : St S unit :=
  match recovered with
  | Some err =>
      (if SentryOn (config env) then
         emit EvHubClone ;;
         let localHub := Clone CurrentHub in
         match c with
         | Some c' => emit (EvScopeSetRequest localHub (request c'))
         | None => ret tt
         end ;;
         emit (EvScopeSetTag localHub "goroutine" "true") ;;
         emit (EvHubRecover localHub err)
       else ret tt) ;;
      emit (EvLoggerError err)
  | None => ret tt
  end.

(** [Execute] *)
Definition Execute (fn : St trace unit) (poolName : list string) : St Sched unit :=
  let unpooled : St trace unit -> St Sched unit :=
    fun task =>
      go (call (defer (recovering (recoverPanic None)) ;; lift task)) in
  asyncFunc <-
    match poolName with
    | name :: _ =>
        match GetPool env name with
        | (Some pool, None) =>
            ret (fun task =>
              call (defer (recovering (recoverPanic None)) ;;
                    err <- lift (Submit pool task) ;;
                    match err with
                    | Some e => panic (VError e)
                    | None => ret tt
                    end))
        | _ => emit (EvWarnf name) ;; ret unpooled
        end
    | [] => ret unpooled
    end ;;
  asyncFunc fn.

(** What [regexp.MustCompile] panics with for a pattern that
    [regexp.Compile] refuses:
    [panic(`regexp: Compile(` + quote(str) + `): ` + err.Error())]. *)
Definition MustCompile_panic (str : string) : value :=
  VString ("regexp: Compile(" +:+ regexp_quote env str +:+ "): " +:+
           regexp_Compile_error env str).

(** The loop over [skipTracesEndpoints]. *)
Fixpoint skip_traces {S} `{Logs S} (endpoints : list string) (path : string)
  : St S unit :=
  match endpoints with
  | [] => ret tt
  | endpoint :: rest =>
      match regexp_Compile env endpoint with
      | None => panic (MustCompile_panic endpoint)
      | Some re =>
          if re path then emit EvSpanSampledFalse
          else skip_traces rest path
      end
  end.

(** The function literal that [ExecuteWithContext] hands to [Execute]. *)
Definition scheduled (fn : Task) (ec : Context) : St (frame trace) unit :=
  ec <-
    (if SentryOn (config env) then
       let ctx := Ctx (request ec) in
       hub <- match GetHubFromContext ctx with
              | Some h => ret h
              | None => emit EvHubClone ;; ret (Clone CurrentHub)
              end ;;
       emit (EvScopeSetRequest hub (request ec)) ;;
       let ctx := WithHub hub ctx in
       let ec := Set_ ec SentryHubContextKey hub in
       if PrimFloat.ltb 0%float
            (FloatInRange (tracesSampleRate (config env)) 0%float 1%float) then
         let path := Path (request ec) in
         emit (EvStartSpan (Method (request ec) +:+ " " +:+ path +:+ " ASYNC")) ;;
         skip_traces (skipTracesEndpoints (config env)) path ;;
         defer (plain (emit EvSpanFinish)) ;;
         ret (SetRequest ec (WithContext (request ec) (WithSpan ctx)))
       else ret ec
     else ret ec) ;;
  defer (plain (emit (EvReleaseContext ec))) ;;
  defer (recovering (recoverPanic (Some ec))) ;;
  run_work (fn ec).

(** [ExecuteWithContext] *)
Definition ExecuteWithContext (fn : Task) (c : Context) (poolName : list string)
  : St Sched unit :=
  emit EvAcquireContext ;;
  let ec := Reset (pooled env) (WithContext (request c) TODO) in
  Execute (call (scheduled fn ec)) poolName.

End Executor.

(** *** Running what was dispatched *)

(** A dispatched body runs on a thread of its own, with its own trace. *)
Definition run_thread (d : Dispatched) : trace * result unit :=
  match d with
  | Goroutine body => body []
  | PoolTask _ task => task []
  end.

Definition start : Sched := mkSched [] [].

(** The threads an invocation leaves behind, each run to its end. *)
Definition threads (s : Sched) : list (trace * result unit) :=
  map run_thread (dispatched s).

(** Every event of an invocation: the caller's, then each thread's. *)
Definition all_events (s : Sched) : trace :=
  events s ++ concat (map fst (threads s)).

Definition count (p : event -> bool) (tr : trace) : nat := length (List.filter p tr).

Definition is_acquire (e : event) : bool :=
  match e with EvAcquireContext => true | _ => false end.
Definition is_release (e : event) : bool :=
  match e with EvReleaseContext _ => true | _ => false end.
Definition is_invoke (e : event) : bool :=
  match e with EvInvoke => true | _ => false end.
Definition is_start_span (e : event) : bool :=
  match e with EvStartSpan _ => true | _ => false end.
Definition is_span_finish (e : event) : bool :=
  match e with EvSpanFinish => true | _ => false end.
Definition is_sampled_false (e : event) : bool :=
  match e with EvSpanSampledFalse => true | _ => false end.
Definition is_log (e : event) : bool :=
  match e with EvLoggerError _ => true | _ => false end.
(** Calls that reach the error-reporting sink. *)
Definition is_sink (e : event) : bool :=
  match e with
  | EvHubClone | EvScopeSetRequest _ _ | EvScopeSetTag _ _ _ | EvHubRecover _ _
  | EvStartSpan _ | EvSpanSampledFalse | EvSpanFinish => true
  | _ => false
  end.

(** Every configured skip pattern is a regular expression. *)
Definition valid_patterns (env : Env) : Prop :=
  Forall (fun p => is_Some (regexp_Compile env p)) (skipTracesEndpoints (config env)).

(** The path matches the pattern. *)
Definition matches (env : Env) (path pat : string) : Prop :=
  exists re, regexp_Compile env pat = Some re /\ re path = true.

(** The pattern compiles and the path does not match it. *)
Definition misses (env : Env) (path pat : string) : Prop :=
  exists re, regexp_Compile env pat = Some re /\ re path = false.

(** Going through the patterns in order, matching each against the path
    and stopping at the first match, a match is found. *)
Definition finds_match (env : Env) (path : string) (pats : list string) : Prop :=
  exists before pat after,
    pats = before ++ pat :: after /\
    Forall (misses env path) before /\
    matches env path pat.

End Async.

(** ** Concrete collaborators for the examples *)

Module Demo.
Import Async.

(** A registry with an accepting pool ["workers"], a saturated pool
    ["busy"], and no other pool. *)
Definition registry (name : string) : option Pool * error :=
  if String.eqb name "workers" then (Some (mkPool "workers" None), None)
  else if String.eqb name "busy" then
    (Some (mkPool "busy" (errors_New "too many goroutines blocked on submit")), None)
  else (None, errors_New "pool not found").

(** A small stand-in for [regexp]: it knows the two patterns of the
    default [env.json], ["/ping"] (the path contains [/ping]) and ["^/$"]
    (the path is [/]), and refuses the unbalanced ["("] as [regexp] does
    (missing closing parenthesis); the examples use no other pattern. *)
Definition compile (pat : string) : option (string -> bool) :=
  if String.eqb pat "(" then None
  else if String.eqb pat "/ping" then
    Some (fun path => bool_decide (is_Some (String.index 0 "/ping" path)))
  else if String.eqb pat "^/$" then Some (String.eqb "/")
  else None.

(** The error of [regexp.Compile] for the pattern the stand-in refuses: a
    [syntax.Error] with the code [missing closing )] and the pattern as its
    expression. *)
Definition compile_error (pat : string) : string :=
  "error parsing regexp: missing closing ): `" +:+ pat +:+ "`".

(** The patterns of the examples hold no back quote and no control
    character: [strconv.CanBackquote] holds of them, and [quote] puts them
    between back quotes. *)
Definition quote (pat : string) : string := "`" +:+ pat +:+ "`".

Definition blank : Context := mkContext (mkRequest "" "" ∅ TODO) [].

Definition env_of (on : bool) (rate : float) (skip : list string) : Env :=
  mkEnv (mkConfig on rate skip) registry compile compile_error quote blank.

Definition get (path : string) : Context :=
  mkContext (mkRequest "GET" path ∅ TODO) [].

(** The first thread an invocation left behind, run to its end. *)
Definition thread_of (s : Sched) : trace * result unit :=
  default ([], Ok tt) (head (threads s)).

(** [func() { panic("boom") }] *)
Definition boom : Behaviour := mkBehaviour [] (Some (VString "boom")).
(** A unit of work with one effect, returning normally. *)
Definition quiet : Behaviour := mkBehaviour ["done"] None.

End Demo.

(** ** Traces of the building blocks *)

Module Traces.
Import Async.

(** Logging a run of events. *)
Definition logs {S} `{Logs S} (evs : trace) (s : S) : S :=
  fold_left (fun s' e => log e s') evs s.

(** What [recoverPanic] does with a recovered value, on a thread of its
    own trace. *)
Definition recovery (env : Env) (c : option Context) (v : value) : trace :=
  fst (recoverPanic env c (Some v) []).

(** The events of a unit of work. *)
Definition work_events (b : Behaviour) : trace := EvInvoke :: map EvWork (effects b).

(** The condition under which [ExecuteWithContext] starts a span. *)
Definition span_started (env : Env) : bool :=
  SentryOn (config env) &&
  PrimFloat.ltb 0%float (FloatInRange (tracesSampleRate (config env)) 0%float 1%float).

(** The loop over the skip patterns, as a function: does a pattern
    match before one fails to compile? *)
Fixpoint first_match (env : Env) (endpoints : list string) (path : string)
  : result bool :=
  match endpoints with
  | [] => Ok false
  | endpoint :: rest =>
      match regexp_Compile env endpoint with
      | None => Panic (MustCompile_panic env endpoint)
      | Some re => if re path then Ok true else first_match env rest path
      end
  end.

(** How [Execute] dispatches, by pool name. *)
Inductive Route : Type :=
| Unpooled (warned : option string)
| Accepted (p : Pool)
| Rejected (p : Pool) (e : error_value).

Definition route (env : Env) (poolName : list string) : Route :=
  match poolName with
  | [] => Unpooled None
  | name :: _ =>
      match GetPool env name with
      | (Some p, None) =>
          match Submit_error p with
          | None => Accepted p
          | Some e => Rejected p e
          end
      | _ => Unpooled (Some name)
      end
  end.

(** The pool was found and refuses the task: [pool.Submit] answers an
    error, and nothing of the task runs. *)
Definition refused (env : Env) (poolName : list string) : bool :=
  match route env poolName with
  | Rejected _ _ => true
  | _ => false
  end.

(** The goroutine of the unpooled path: [fn] under [recoverPanic(nil)]. *)
Definition guarded (env : Env) (fn : St trace unit) : St trace unit :=
  call (defer (recovering (recoverPanic env None)) ;; lift fn).

(** The context [ExecuteWithContext] acquires and resets. *)
Definition detached (env : Env) (c : Context) : Context :=
  Reset (pooled env) (WithContext (request c) TODO).

(** The context as the unit of work, the recovery and the release see it. *)
Definition work_context (env : Env) (ec : Context) : Context :=
  if SentryOn (config env) then
    let ec1 := Set_ ec SentryHubContextKey (Clone CurrentHub) in
    if PrimFloat.ltb 0%float
         (FloatInRange (tracesSampleRate (config env)) 0%float 1%float) then
      SetRequest ec1
        (WithContext (request ec1) (WithSpan (WithHub (Clone CurrentHub) (Ctx (request ec)))))
    else ec1
  else ec.

Definition span_name (ec : Context) : string :=
  Method (request ec) +:+ " " +:+ Path (request ec) +:+ " ASYNC".

(** The events of the scheduled closure before the unit of work, when
    the scan of the skip patterns ends with [skipped]. *)
Definition prelude (env : Env) (ec : Context) (skipped : bool) : trace :=
  if SentryOn (config env) then
    [EvHubClone; EvScopeSetRequest (Clone CurrentHub) (request ec)] ++
    (if span_started env then
       EvStartSpan (span_name ec) :: (if skipped then [EvSpanSampledFalse] else [])
     else [])
  else [].

(** The events of the scheduled closure after the unit of work. *)
Definition epilogue (env : Env) (b : Behaviour) (ec : Context) : trace :=
  match finish b with
  | Some v => recovery env (Some ec) v
  | None => []
  end ++
  EvReleaseContext ec :: (if span_started env then [EvSpanFinish] else []).

(** The claim that the release is the last effect of a thread. *)
Definition release_is_last (tr : trace) : bool :=
  match last tr with
  | Some (EvReleaseContext _) => true
  | _ => false
  end.

(** The claim that a span is closed before the context is released: no
    [EvSpanFinish] after an [EvReleaseContext]. *)
Fixpoint closed_before_release (tr : trace) : bool :=
  match tr with
  | [] => true
  | EvReleaseContext _ :: rest =>
      negb (existsb is_span_finish rest) && closed_before_release rest
  | _ :: rest => closed_before_release rest
  end.

End Traces.

(** ** bean.go *)

Module Bean.

(** The calls that leave the package. *)
Inductive event : Type :=
| EvHubClone                                  (* sentry.CurrentHub().Clone() *)
| EvCaptureException (h : Hub) (err : error)  (* hub.CaptureException(err) *)
| EvCaptureMessage (h : Hub) (msg : string)   (* hub.CaptureMessage(msg) *)
| EvLoggerError (err : error)                 (* Logger().Error(err) *)
| EvHandle (i : nat) (err : error).           (* the i-th error handler is called with err *)

(** [c.Get(key)]: the value last set under the key. *)
Fixpoint lookup_store (st : list (string * Hub)) (key : string) : option Hub :=
  match st with
  | [] => None
  | (k, h) :: rest => if String.eqb k key then Some h else lookup_store rest key
  end.

Definition Get (c : Context) (key : string) : option Hub := lookup_store (store c) key.

(** [sentryecho.GetHubFromContext]: the hub stored under the key ["sentry"]. *)
Definition sentryecho_GetHubFromContext (c : Context) : option Hub := Get c "sentry".

Definition is_handle (e : event) : bool :=
  match e with EvHandle _ _ => true | _ => false end.

(** [type ErrorHandlerFunc func(err error, c echo.Context) (bool, error)] *)
Definition ErrorHandlerFunc : Type := error -> Context -> bool * error.

Section Reporting.

(** The global [SentryOn]. *)
Variable SentryOn : bool.

(** [SentryCaptureException]; a nil context is [None]. *)
Definition SentryCaptureException (c : option Context) (err : error) : list event :=
  if negb SentryOn then []
  else
    match c with
    | Some c' =>
        match sentryecho_GetHubFromContext c' with
        | Some hub => [EvCaptureException hub err]
        | None => []
        end
    | None => [EvHubClone; EvCaptureException (Clone CurrentHub) err]
    end.

(** [SentryCaptureMessage] *)
Definition SentryCaptureMessage (c : option Context) (msg : string) : list event :=
  if negb SentryOn then []
  else
    match c with
    | Some c' =>
        match sentryecho_GetHubFromContext c' with
        | Some hub => [EvCaptureMessage hub msg]
        | None => []
        end
    | None => [EvHubClone; EvCaptureMessage (Clone CurrentHub) msg]
    end.

(** The loop of [DefaultHTTPErrorHandler] from the [i]-th handler on.  The
    [err] a handler returns is a variable of the loop body: the next
    handler is called with the [err] of the closure again. *)
Fixpoint handle_all (hs : list ErrorHandlerFunc) (i : nat) (err : error) (c : Context)
  : list event :=
  match hs with
  | [] => []
  | handle :: rest =>
      let '(handled, err') := handle err c in
      EvHandle i err ::
      match err' with
      | Some _ =>
          if SentryOn then SentryCaptureException (Some c) err'
          else [EvLoggerError err']
      | None => []
      end ++
      (if handled then [] else handle_all rest (S i) err c)
  end.

End Reporting.

(** The fields of [Bean] that the methods below use; [errorHandlerFuncs]
    may be a nil slice ([None]), [validate] is the validator behind the
    pointer, of a type [V]. *)
Record Bean (V : Type) : Type := mkBean {
  errorHandlerFuncs : option (list ErrorHandlerFunc);
  validate : V
}.
Arguments mkBean {V} errorHandlerFuncs validate.
Arguments errorHandlerFuncs {V} b.
Arguments validate {V} b.

(** Ranging over a slice, nil or not. *)
Definition elements {A} (s : option (list A)) : list A :=
  match s with
  | Some l => l
  | None => []
  end.

(** [UseErrorHandlerFuncs] *)
Definition UseErrorHandlerFuncs {V} (b : Bean V) (errHdlrFuncs : list ErrorHandlerFunc)
  : Bean V :=
  let b1 :=
    match errorHandlerFuncs b with
    | None => mkBean (Some []) (validate b)
    | Some _ => b
    end in
  mkBean (Some (elements (errorHandlerFuncs b1) ++ errHdlrFuncs)) (validate b1).

(** The closure [DefaultHTTPErrorHandler] returns, called with [err] and a
    context whose response is [committed] or not. *)
Definition DefaultHTTPErrorHandler {V} (SentryOn : bool) (b : Bean V)
    (err : error) (c : Context) (committed : bool) : list event :=
  if committed then []
  else handle_all SentryOn (elements (errorHandlerFuncs b)) 0 err c.

(** [UseValidation]: a [validator.ValidatorFunc] works on the validator
    and answers an error; the errors are logged. *)
Fixpoint UseValidation {V} (b : Bean V) (validateFuncs : list (V -> V * error))
  : Bean V * list event :=
  match validateFuncs with
  | [] => (b, [])
  | validateFunc :: rest =>
      let '(v, err) := validateFunc (validate b) in
      let b' := mkBean (errorHandlerFuncs b) v in
      let '(b'', evs) := UseValidation b' rest in
      (b'', match err with Some _ => [EvLoggerError err] | None => [] end ++ evs)
  end.

(** *** [DefaultBeforeSend] *)

Section BeforeSend.

(** [berror.ErrorCode], and what a sentry event carries besides its
    contexts. *)
Variable ErrorCode : Type.
Variable Payload : Type.

(** The fields of [berror.APIError] that are read, and what its [Error()]
    answers. *)
Record APIError : Type := mkAPIError {
  Ignorable : bool;
  HTTPStatusCode : Z;
  GlobalErrCode : ErrorCode;
  Error_ : string
}.

(** The dynamic type of [hint.OriginalException]. *)
Inductive exception : Type :=
| NoException                       (* nil *)
| ValidationErr                     (* *validator.ValidationError *)
| APIErr (e : APIError)             (* *berror.APIError *)
| HTTPErr                           (* *echo.HTTPError *)
| OtherErr.                         (* any other type *)

(** A value of [event.Contexts]: the map written by [DefaultBeforeSend],
    with its three keys, or anything else. *)
Inductive context_value : Type :=
| ErrorContext (status : Z) (code : ErrorCode) (message : string)
| OtherContext (p : Payload).

(** A [sentry.Event]; [Contexts] may be a nil map ([None]). *)
Record Event : Type := mkEvent {
  Contexts : option (gmap string context_value);
  rest : Payload
}.

(** [DefaultBeforeSend]; the pointers [event] and [hint] may be nil. *)
Definition DefaultBeforeSend (event : option Event) (hint : option exception)
  : result (option Event) :=
  match hint with
  | None => Panic (VRuntime "invalid memory address or nil pointer dereference")
  | Some OriginalException =>
      match OriginalException with
      | ValidationErr => Ok event
      | APIErr err =>
          if Ignorable err then Ok None
          else
            match event with
            | None => Panic (VRuntime "invalid memory address or nil pointer dereference")
            | Some ev =>
                match Contexts ev with
                | None => Panic (VRuntime "assignment to entry in nil map")
                | Some m =>
                    Ok (Some (mkEvent
                      (Some (<["Error" :=
                               ErrorContext (HTTPStatusCode err) (GlobalErrCode err)
                                            (Error_ err)]> m))
                      (rest ev)))
                end
            end
      | HTTPErr => Ok event
      | _ => Ok event
      end
  end.

End BeforeSend.

Arguments mkAPIError {ErrorCode} Ignorable HTTPStatusCode GlobalErrCode Error_.
Arguments Ignorable {ErrorCode} a.
Arguments HTTPStatusCode {ErrorCode} a.
Arguments GlobalErrCode {ErrorCode} a.
Arguments Error_ {ErrorCode} a.
Arguments NoException {ErrorCode}.
Arguments ValidationErr {ErrorCode}.
Arguments APIErr {ErrorCode} e.
Arguments HTTPErr {ErrorCode}.
Arguments OtherErr {ErrorCode}.
Arguments ErrorContext {ErrorCode Payload} status code message.
Arguments OtherContext {ErrorCode Payload} p.
Arguments mkEvent {ErrorCode Payload} Contexts rest.
Arguments Contexts {ErrorCode Payload} e.
Arguments rest {ErrorCode Payload} e.
Arguments DefaultBeforeSend {ErrorCode Payload} event hint.

(** *** [openFile] *)

(** The calls into the file system. *)
Inductive fs_call : Type :=
| Stat (path : string)
| MkdirAll (path : string) (perm : Z)
| OpenFile (path : string) (flag : Z) (perm : Z).

Definition is_open (c : fs_call) : bool :=
  match c with OpenFile _ _ _ => true | _ => false end.

Definition is_mkdir (c : fs_call) : bool :=
  match c with MkdirAll _ _ => true | _ => false end.

(** [os.O_RDWR], [os.O_CREATE], [os.O_APPEND] (linux), and the modes
    [0664] and [0764]. *)
Definition O_RDWR : Z := 2.
Definition O_CREATE : Z := 64.
Definition O_APPEND : Z := 1024.
Definition mode_0664 : Z := 436.
Definition mode_0764 : Z := 500.

Section Files.

(** What the file system answers: [os.Stat] (the error only),
    [os.IsNotExist], [os.MkdirAll], [os.OpenFile] (a file, here its name,
    and an error), and [filepath.Dir]. *)
Variable os_Stat : string -> error.
Variable os_IsNotExist : error -> bool.
Variable os_MkdirAll : string -> Z -> error.
Variable os_OpenFile : string -> Z -> Z -> option string * error.
Variable filepath_Dir : string -> string.

(** [openFile]: the calls made, and the answer. *)
Definition openFile (path : string) : list fs_call * (option string * error) :=
  let open :=
    (OpenFile path (Z.lor (Z.lor O_CREATE O_RDWR) O_APPEND) mode_0664,
     os_OpenFile path (Z.lor (Z.lor O_CREATE O_RDWR) O_APPEND) mode_0664) in
  match os_Stat path with
  | Some e =>
      if os_IsNotExist (Some e) then
        match os_MkdirAll (filepath_Dir path) mode_0764 with
        | Some e' => ([Stat path; MkdirAll (filepath_Dir path) mode_0764], (None, Some e'))
        | None => ([Stat path; MkdirAll (filepath_Dir path) mode_0764; fst open], snd open)
        end
      else ([Stat path], (None, Some e))
  | None => ([Stat path; fst open], snd open)
  end.

End Files.

(** *** [NewEcho] *)

(** [middleware.LoggerConfig], as far as it is filled in. *)
Record LoggerConfig : Type := mkLoggerConfig {
  BodyDump : bool;
  Output : option string;               (* nil: the default output *)
  MaskedParameters : list string
}.

(** The middlewares [NewEcho] registers. *)
Inductive middleware : Type :=
| AccessLogger (cfg : LoggerConfig)     (* middleware.AccessLoggerWithConfig *)
| SentryEcho (repanic : bool) (timeout : Z)
| Tracer
| RemoveTrailingSlash
| HTTPSRedirect
| Recover
| RequestID
| ServerHeader (name version : string)
| BodyLimit (limit : string)
| CORS (origins methods : list string)
| Secure (xss nosniff xframe : string) (hsts : Z) (csp : string)
| Prometheus (skip : list string).

(** The [echo.Echo] under construction. *)
Record Echo : Type := mkEcho {
  HideBanner : bool;
  CustomBinder : bool;
  DisableCache : option bool;           (* the renderer, once set *)
  LoggerOutput : option string;         (* the file set with SetOutput *)
  LoggerDebug : bool;                   (* SetLevel(log.DEBUG) *)
  pre : list middleware;                (* e.Pre, in order *)
  use : list middleware                 (* e.Use, in order *)
}.

(** [echo.New()] *)
Definition echo_New : Echo := mkEcho false false None None false [] [].

Definition Pre (m : middleware) (e : Echo) : Echo :=
  mkEcho (HideBanner e) (CustomBinder e) (DisableCache e) (LoggerOutput e)
         (LoggerDebug e) (pre e ++ [m]) (use e).

Definition Use (m : middleware) (e : Echo) : Echo :=
  mkEcho (HideBanner e) (CustomBinder e) (DisableCache e) (LoggerOutput e)
         (LoggerDebug e) (pre e) (use e ++ [m]).

Section Boot.

(** [sentry.ClientOptions] and the type of a scope function. *)
Variable Options Scope : Type.

(** The part of [Config] that [NewEcho] reads; [ClientOptions] and
    [ConfigureScope] may be nil. *)
Record Config : Type := mkConfig {
  ProjectName : string;
  DebugLogPath : string;
  AccessLog_On : bool;
  AccessLog_BodyDump : bool;
  AccessLog_Path : string;
  AccessLog_BodyDumpMaskParam : list string;
  Prometheus_On : bool;
  Prometheus_SkipEndpoints : list string;
  HTTP_BodyLimit : string;
  HTTP_IsHttpsRedirect : bool;
  HTTP_AllowedMethod : list string;
  HTML_ViewsTemplateCache : bool;
  Sentry_On : bool;
  Sentry_Timeout : Z;
  Sentry_TracesSampleRate : float;
  Sentry_ClientOptions : option Options;
  Sentry_ConfigureScope : option Scope;
  XssProtection : string;
  ContentTypeNosniff : string;
  XFrameOptions : string;
  HstsMaxAge : Z;
  ContentSecurityPolicy : string
}.

(** The process around the echo instance: the calls into the file
    system, the globals [BeanLogger] and [SentryOn], and what sentry was
    given. *)
Record Process : Type := mkProcess {
  fs : list fs_call;
  BeanLogger : bool;                    (* set to e.Logger *)
  SentryOn : bool;
  sentry_Init : option Options;         (* sentry.Init(options) returned nil *)
  sentry_Scope : option Scope           (* sentry.ConfigureScope(f) *)
}.

(** Why [e.Logger.Fatal] ended the process. *)
Inductive fatal : Type :=
| UnableToOpenLogFile (err : error)
| ClientOptionsEmpty
| SentryInitFailed (err : error).

(** [NewEcho] returns, or the logger ends the process ([os.Exit]). *)
Inductive outcome : Type :=
| Returned (e : Echo) (p : Process)
| Exited (why : fatal) (e : Echo) (p : Process).

Variable os_Stat : string -> error.
Variable os_IsNotExist : error -> bool.
Variable os_MkdirAll : string -> Z -> error.
Variable os_OpenFile : string -> Z -> Z -> option string * error.
Variable filepath_Dir : string -> string.
(** [sentry.Init] and [helpers.CurrVersion()] *)
Variable sentry_init : Options -> error.
Variable CurrVersion : string.

Definition open_log (path : string) (p : Process) : Process * (option string * error) :=
  let '(calls, answer) :=
    openFile os_Stat os_IsNotExist os_MkdirAll os_OpenFile filepath_Dir path in
  (mkProcess (fs p ++ calls) (BeanLogger p) (SentryOn p) (sentry_Init p) (sentry_Scope p),
   answer).

(** The debug log. *)
Definition debug_log (config : Config) (e : Echo) (p : Process)
  : outcome :=
  if String.eqb (DebugLogPath config) "" then Returned e p
  else
    match open_log (DebugLogPath config) p with
    | (p', (_, Some err)) => Exited (UnableToOpenLogFile (Some err)) e p'
    | (p', (file, None)) =>
        Returned
          (mkEcho (HideBanner e) (CustomBinder e) (DisableCache e) file
                  (LoggerDebug e) (pre e) (use e)) p'
    end.

(** The access log and the body dumper. *)
Definition access_log (config : Config) (e : Echo) (p : Process)
  : outcome :=
  if AccessLog_On config then
    let accessLogConfig := mkLoggerConfig (AccessLog_BodyDump config) None [] in
    if String.eqb (AccessLog_Path config) "" then
      Returned (Use (AccessLogger accessLogConfig) e) p
    else
      match open_log (AccessLog_Path config) p with
      | (p', (_, Some err)) => Exited (UnableToOpenLogFile (Some err)) e p'
      | (p', (file, None)) =>
          let accessLogConfig :=
            mkLoggerConfig (BodyDump accessLogConfig) file
                           (MaskedParameters accessLogConfig) in
          let accessLogConfig :=
            if decide (0 < length (AccessLog_BodyDumpMaskParam config)) then
              mkLoggerConfig (BodyDump accessLogConfig) (Output accessLogConfig)
                             (AccessLog_BodyDumpMaskParam config)
            else accessLogConfig in
          Returned (Use (AccessLogger accessLogConfig) e) p'
      end
  else Returned e p.

(** Sentry: the panic handler and the tracer. *)
Definition sentry_setup (config : Config) (e : Echo) (p : Process)
  : outcome :=
  if Sentry_On config then
    match Sentry_ClientOptions config with
    | None => Exited ClientOptionsEmpty e p
    | Some options =>
        match sentry_init options with
        | Some err => Exited (SentryInitFailed (Some err)) e p
        | None =>
            let p := mkProcess (fs p) (BeanLogger p) (SentryOn p) (Some options)
                               (sentry_Scope p) in
            let p :=
              match Sentry_ConfigureScope config with
              | Some f => mkProcess (fs p) (BeanLogger p) (SentryOn p)
                                    (sentry_Init p) (Some f)
              | None => p
              end in
            let e := Use (SentryEcho true (Sentry_Timeout config)) e in
            let e :=
              if PrimFloat.ltb 0%float
                   (Async.FloatInRange (Sentry_TracesSampleRate config) 0%float 1%float)
              then Pre Tracer e else e in
            Returned e
              (mkProcess (fs p) (BeanLogger p) true (sentry_Init p) (sentry_Scope p))
        end
    end
  else Returned e p.

(** The middlewares registered in every configuration. *)
Definition prebuilt (config : Config) (e : Echo) : Echo :=
  let e := Pre RemoveTrailingSlash e in
  let e := if HTTP_IsHttpsRedirect config then Pre HTTPSRedirect e else e in
  let e := Use Recover e in
  let e := Use RequestID e in
  let e := Use (ServerHeader (ProjectName config) CurrVersion) e in
  let e := Use (BodyLimit (HTTP_BodyLimit config)) e in
  let e := Use (CORS ["*"] (HTTP_AllowedMethod config)) e in
  let e := Use (Secure (XssProtection config) (ContentTypeNosniff config)
                       (XFrameOptions config) (HstsMaxAge config)
                       (ContentSecurityPolicy config)) e in
  if Prometheus_On config then Use (Prometheus (Prometheus_SkipEndpoints config)) e
  else e.

(** One step after another, unless the process has ended. *)
Definition and_then (o : outcome) (k : Echo -> Process -> outcome) : outcome :=
  match o with
  | Returned e p => k e p
  | Exited why e p => Exited why e p
  end.

(** [NewEcho], started in the process [p]. *)
Definition NewEcho (config : Config) (p : Process) : outcome :=
  let e := echo_New in
  let e := mkEcho true true (Some (negb (HTML_ViewsTemplateCache config)))
                  (LoggerOutput e) (LoggerDebug e) (pre e) (use e) in
  and_then (debug_log config e p) (fun e p =>
  let e := mkEcho (HideBanner e) (CustomBinder e) (DisableCache e) (LoggerOutput e)
                  true (pre e) (use e) in
  let p := mkProcess (fs p) true (SentryOn p) (sentry_Init p) (sentry_Scope p) in
  and_then (access_log config e p) (fun e p =>
  and_then (sentry_setup config e p) (fun e p =>
  Returned (prebuilt config e) p))).

End Boot.

Arguments ProjectName {Options Scope} c.
Arguments DebugLogPath {Options Scope} c.
Arguments AccessLog_On {Options Scope} c.
Arguments AccessLog_BodyDump {Options Scope} c.
Arguments AccessLog_Path {Options Scope} c.
Arguments AccessLog_BodyDumpMaskParam {Options Scope} c.
Arguments Prometheus_On {Options Scope} c.
Arguments Prometheus_SkipEndpoints {Options Scope} c.
Arguments HTTP_BodyLimit {Options Scope} c.
Arguments HTTP_IsHttpsRedirect {Options Scope} c.
Arguments HTTP_AllowedMethod {Options Scope} c.
Arguments HTML_ViewsTemplateCache {Options Scope} c.
Arguments Sentry_On {Options Scope} c.
Arguments Sentry_Timeout {Options Scope} c.
Arguments Sentry_TracesSampleRate {Options Scope} c.
Arguments Sentry_ClientOptions {Options Scope} c.
Arguments Sentry_ConfigureScope {Options Scope} c.
Arguments XssProtection {Options Scope} c.
Arguments ContentTypeNosniff {Options Scope} c.
Arguments XFrameOptions {Options Scope} c.
Arguments HstsMaxAge {Options Scope} c.
Arguments ContentSecurityPolicy {Options Scope} c.
Arguments Returned {Options Scope} e p.
Arguments Exited {Options Scope} why e p.
Arguments fs {Options Scope} p.
Arguments BeanLogger {Options Scope} p.
Arguments SentryOn {Options Scope} p.
Arguments sentry_Init {Options Scope} p.
Arguments sentry_Scope {Options Scope} p.
Arguments mkProcess {Options Scope} fs BeanLogger SentryOn sentry_Init sentry_Scope.

(** A configuration and a file system for the examples: every file is
    there and opens, [sentry.Init] succeeds. *)
Definition demo_config (access_path : string) (mask : list string)
    (sentry : bool) (rate : float) (options : option unit) : Config unit unit :=
  mkConfig unit unit "shop" "" true true access_path mask false [] "1M" false
           ["GET"; "POST"] true sentry 5 rate options None
           "1; mode=block" "nosniff" "SAMEORIGIN" 31536000 "".

Definition demo_boot : Config unit unit -> Process unit unit -> outcome unit unit :=
  NewEcho unit unit (fun _ => None) (fun _ => false) (fun _ _ => None)
          (fun path _ _ => (Some path, None)) (fun path => path) (fun _ => None) "v1".

Definition demo_process : Process unit unit := mkProcess [] false false None None.

End Bean.

(** ** helpers: the jittered backoff *)

Module Backoff.

(** The calls on the shared random source and its mutex. *)
Inductive event : Type :=
| EvLock                                (* rndMu.Lock() *)
| EvUnlock                              (* rndMu.Unlock() *)
| EvInt63n (n : Z).                     (* rnd.Int63n(n) *)

Definition emit (e : event) : St (frame (list event)) unit :=
  fun f => (Frame (stack f) (st f ++ [e]), Ok tt).

(** Calling a function with one result: as [call], and the result of the
    body stands unless a panic is in flight after the deferred calls; a
    recovered panic leaves the zero value. *)
Definition call_with {S A} (zero : A) (body : St (frame S) A) : St S A :=
  fun s =>
    let '(f, r) := body (Frame [] s) in
    let p := match r with Ok _ => None | Panic v => Some v end in
    let '(s', p') := run_defers (stack f) p (st f) in
    (s', match p' with
         | Some v => Panic v
         | None => match r with Ok a => Ok a | Panic _ => Ok zero end
         end).

(** An [int64] sum wraps around. *)
Definition wrap64 (z : Z) : Z := (z + 2 ^ 63) mod 2 ^ 64 - 2 ^ 63.

Section Jitter.

(** The conversions and the functions of [math] are taken as they come:
    [float64(d)], [time.Duration(f)], [math.Exp2], [math.Min], [math.Abs];
    and the value [rnd.Int63n(n)] draws for a positive [n]. *)
Variable float64_of : Z -> float.
Variable Duration_of : float -> Z.
Variable math_Exp2 : float -> float.
Variable math_Min : float -> float -> float.
Variable math_Abs : float -> float.
Variable draw : Z -> Z.

(** [rnd.Int63n(n)]: it panics unless [n] is positive. *)
Definition Int63n (n : Z) : St (frame (list event)) Z :=
  emit (EvInt63n n) ;;
  if decide (n <= 0)%Z then panic (VString "invalid argument to Int63n")
  else ret (draw n).

(** [randDuration] *)
Definition randDuration (center : Z) : St (list event) Z :=
  call_with 0%Z
    (emit EvLock ;;
     defer (fun p s => (s ++ [EvUnlock], p)) ;;
     let ri := center in
     jitter <- Int63n ri ;;
     ret (Duration_of (math_Abs (float64_of (wrap64 (ri + jitter)%Z))))).

(** The duration handed to [randDuration]: half of the capped backoff. *)
Definition half_capped (min max attempt : Z) : Z :=
  let base := float64_of min in
  let capLevel := float64_of max in
  let temp := math_Min capLevel (PrimFloat.mul base (math_Exp2 (float64_of attempt))) in
  Duration_of (PrimFloat.div temp 2%float).

(** [JitterBackoff] *)
Definition JitterBackoff (min max attempt : Z) : St (list event) Z :=
  let ri := half_capped min max attempt in
  result <- randDuration ri ;;
  let result := if decide (result < min)%Z then min else result in
  ret result.

End Jitter.

(** Conversions and functions of [math] for the examples, exact on the
    small whole numbers used there. *)
Definition demo_float64 (z : Z) : float :=
  if (z <? 0)%Z then PrimFloat.opp (PrimFloat.of_uint63 (Uint63.of_Z (- z)))
  else PrimFloat.of_uint63 (Uint63.of_Z z).

Definition demo_Duration (f : float) : Z :=
  match Prim2SF f with
  | S754_finite s m e =>
      let v := if (0 <=? e)%Z then (Z.pos m * 2 ^ e)%Z else (Z.pos m / 2 ^ (- e))%Z in
      if s then (- v)%Z else v
  | _ => 0%Z
  end.

Definition demo_Exp2 (f : float) : float := Z.ldexp 1%float (demo_Duration f).

Definition demo_Min (a b : float) : float := if PrimFloat.ltb a b then a else b.

Definition demo_JitterBackoff : Z -> Z -> Z -> St (list event) Z :=
  JitterBackoff demo_float64 demo_Duration demo_Exp2 demo_Min PrimFloat.abs
                (fun n => n / 4)%Z.

End Backoff.

Import Async Traces Demo.

Section TraceLemmas.

Lemma logs_trace (evs tr : trace) : logs evs tr = tr ++ evs.
Proof.
  unfold logs. revert tr. induction evs as [|e evs IH]; intros tr; cbn [fold_left].
  - by rewrite app_nil_r.
  - rewrite IH. unfold log, trace_logs. by rewrite <- app_assoc.
Qed.

Lemma logs_frame {S} `{Logs S} (evs : trace) (f : frame S) :
  logs evs f = Frame (stack f) (logs evs (st f)).
Proof.
  unfold logs. revert f. induction evs as [|e evs IH]; intros [ds s]; cbn [fold_left]; [done|].
  by rewrite IH.
Qed.

Lemma logs_sched (evs : trace) (s : Sched) :
  logs evs s = mkSched (events s ++ evs) (dispatched s).
Proof.
  unfold logs. revert s. induction evs as [|e evs IH]; intros [tr ds]; cbn [fold_left].
  - simpl. by rewrite app_nil_r.
  - rewrite IH. simpl. by rewrite <- app_assoc.
Qed.

Lemma emit_all_logs {S} `{Logs S} (ls : list string) (s : S) :
  emit_all ls s = (logs (map EvWork ls) s, Ok tt).
Proof.
  revert s. induction ls as [|l ls IH]; intros s; [done|].
  cbn [emit_all map]. unfold bind, emit. by rewrite IH.
Qed.

Lemma run_work_logs {S} `{Logs S} (b : Behaviour) (s : S) :
  run_work b s =
  (logs (work_events b) s,
   match finish b with None => Ok tt | Some v => Panic v end).
Proof.
  unfold run_work, bind, emit. rewrite emit_all_logs. simpl.
  by destruct (finish b).
Qed.

Variable env : Env.

(** The events of a recovery, spelled out. *)
Lemma recovery_events (c : option Context) (v : value) :
  recovery env c v =
  (if SentryOn (config env) then
     EvHubClone ::
     match c with
     | Some c' => [EvScopeSetRequest (Clone CurrentHub) (request c')]
     | None => []
     end ++
     [EvScopeSetTag (Clone CurrentHub) "goroutine" "true";
      EvHubRecover (Clone CurrentHub) v]
   else []) ++ [EvLoggerError v].
Proof.
  unfold recovery, recoverPanic. destruct (SentryOn (config env)), c; reflexivity.
Qed.

Lemma recoverPanic_logs {S} `{Logs S} (c : option Context) (v : value) (s : S) :
  recoverPanic env c (Some v) s = (logs (recovery env c v) s, Ok tt).
Proof.
  rewrite recovery_events. unfold recoverPanic.
  destruct (SentryOn (config env)), c; reflexivity.
Qed.

Lemma recoverPanic_idle {S} `{Logs S} (c : option Context) (s : S) :
  recoverPanic env c None s = (s, Ok tt).
Proof. reflexivity. Qed.

Lemma skip_traces_first_match {S} `{Logs S} (eps : list string) (path : string) (s : S) :
  skip_traces env eps path s =
  match first_match env eps path with
  | Ok true => (log EvSpanSampledFalse s, Ok tt)
  | Ok false => (s, Ok tt)
  | Panic v => (s, Panic v)
  end.
Proof.
  induction eps as [|e eps IH]; simpl; [done|].
  destruct (regexp_Compile env e) as [re|]; [|done].
  destruct (re path); [done|]. apply IH.
Qed.

End TraceLemmas.

Section ExecutorLemmas.

Variable env : Env.

Lemma guarded_run (fn : St trace unit) :
  guarded env fn [] =
  match fn [] with
  | (tr, Ok _) => (tr, Ok tt)
  | (tr, Panic v) => (tr ++ recovery env None v, Ok tt)
  end.
Proof.
  unfold guarded, call, bind, defer, lift. simpl.
  destruct (fn []) as [tr [[]|v]]; simpl; [done|].
  unfold recovering. rewrite recoverPanic_logs, logs_trace. done.
Qed.

Lemma Execute_route (fn : St trace unit) (poolName : list string) (s : Sched) :
  Execute env fn poolName s =
  match route env poolName with
  | Unpooled w =>
      (mkSched (events s ++ match w with Some n => [EvWarnf n] | None => [] end)
               (dispatched s ++ [Goroutine (guarded env fn)]), Ok tt)
  | Accepted p =>
      (mkSched (events s ++ [EvSubmit (pool_name p)])
               (dispatched s ++ [PoolTask p fn]), Ok tt)
  | Rejected p e =>
      (mkSched (events s ++ EvSubmit (pool_name p) :: recovery env None (VError e))
               (dispatched s), Ok tt)
  end.
Proof.
  destruct s as [tr ds]. unfold Execute, route.
  destruct poolName as [|name rest].
  - unfold bind, ret, go. simpl. by rewrite app_nil_r.
  - destruct (GetPool env name) as [[p|] [e|]]; try reflexivity.
    unfold bind, ret, call, defer, lift, Submit. simpl.
    destruct (Submit_error p) as [e|]; simpl; [|done].
    unfold recovering, panic. rewrite recoverPanic_logs, logs_sched. simpl.
    by rewrite <- app_assoc.
Qed.

End ExecutorLemmas.

Section ScheduledLemmas.

Variable env : Env.

(** Deferred calls that only log leave the panic in flight as it is. *)
Lemma run_defers_plain (evs : trace) (p : option value) (tr : trace) :
  run_defers (map (fun e => plain (emit e)) evs) p tr = (tr ++ evs, p).
Proof.
  revert tr. induction evs as [|e evs IH]; intros tr; simpl.
  - by rewrite app_nil_r.
  - rewrite IH. unfold log, trace_logs. by rewrite <- app_assoc.
Qed.

(** [recoverPanic] deferred last: it runs first, then the logging calls
    deferred before it, and no panic is left. *)
Lemma run_defers_recovering (c : option Context) (evs : trace)
    (p : option value) (tr : trace) :
  run_defers (recovering (recoverPanic env c) :: map (fun e => plain (emit e)) evs) p tr =
  (tr ++ match p with Some v => recovery env c v | None => [] end ++ evs, None).
Proof.
  cbn [run_defers]. unfold recovering. destruct p as [v|].
  - rewrite recoverPanic_logs, logs_trace, run_defers_plain. by rewrite <- app_assoc.
  - rewrite recoverPanic_idle, run_defers_plain. done.
Qed.

Variable fn : Task.
Variable ec : Context.
Hypothesis fresh_ctx : Ctx (request ec) = TODO.

Let path := Path (request ec).
Let eps := skipTracesEndpoints (config env).

(** The body of the closure from its two last [defer]s on. *)
Lemma work_under_defers (c : Context) (evs pre : trace) :
  (let '(f, r) :=
     run_work (fn c)
       (Frame (recovering (recoverPanic env (Some c)) ::
               map (fun e => plain (emit e)) evs) pre) in
   let '(s', p') :=
     run_defers (stack f) match r with Ok _ => None | Panic v => Some v end (st f) in
   (s', match p' with Some v => Panic v | None => Ok tt end)) =
  (pre ++ work_events (fn c) ++
   match finish (fn c) with Some v => recovery env (Some c) v | None => [] end ++ evs,
   Ok tt).
Proof.
  rewrite run_work_logs, logs_frame, logs_trace. cbn [stack st].
  rewrite run_defers_recovering.
  destruct (finish (fn c)); by rewrite <- app_assoc.
Qed.

(** The scheduled closure when no span is started. *)
Lemma scheduled_run_plain :
  span_started env = false ->
  call (scheduled env fn ec) [] =
  (prelude env ec false ++ work_events (fn (work_context env ec)) ++
   epilogue env (fn (work_context env ec)) (work_context env ec), Ok tt).
Proof.
  intros Hspan. unfold prelude, epilogue, work_context. rewrite Hspan.
  unfold span_started in Hspan.
  unfold call, scheduled, bind. rewrite fresh_ctx.
  destruct (SentryOn (config env)); simpl in Hspan; [rewrite Hspan|];
    cbn [ret defer emit stack st log trace_logs frame_logs app];
    exact (work_under_defers _ [EvReleaseContext _] _).
Qed.

(** The scheduled closure when a span is started and the scan of the
    skip patterns ends. *)
Lemma scheduled_run_span (skipped : bool) :
  span_started env = true ->
  first_match env eps path = Ok skipped ->
  call (scheduled env fn ec) [] =
  (prelude env ec skipped ++ work_events (fn (work_context env ec)) ++
   epilogue env (fn (work_context env ec)) (work_context env ec), Ok tt).
Proof.
  intros Hspan Hscan. unfold prelude, epilogue, work_context. rewrite Hspan.
  unfold span_started in Hspan. apply andb_true_iff in Hspan as [Hon Hrate].
  unfold call, scheduled, bind. rewrite fresh_ctx, Hon, Hrate.
  cbn -[skip_traces run_work recovering plain run_defers recoverPanic].
  rewrite skip_traces_first_match. fold path eps. rewrite Hscan.
  destruct skipped;
    cbn -[skip_traces run_work recovering plain run_defers recoverPanic];
    (etrans; [exact (work_under_defers _ [EvReleaseContext _; EvSpanFinish] _)|]);
    reflexivity.
Qed.

(** The scheduled closure when a skip pattern does not compile: the
    panic of [regexp.MustCompile] leaves the closure before any call is
    deferred. *)
Lemma scheduled_run_bad_pattern (v : value) :
  span_started env = true ->
  first_match env eps path = Panic v ->
  call (scheduled env fn ec) [] = (prelude env ec false, Panic v).
Proof.
  intros Hspan Hscan. unfold prelude. rewrite Hspan.
  unfold span_started in Hspan. apply andb_true_iff in Hspan as [Hon Hrate].
  unfold call, scheduled, bind. rewrite fresh_ctx, Hon, Hrate.
  cbn -[skip_traces run_work recovering plain run_defers recoverPanic].
  rewrite skip_traces_first_match. fold path eps. rewrite Hscan. reflexivity.
Qed.

End ScheduledLemmas.

Section Threads.

Variable env : Env.

Lemma ExecuteWithContext_route (fn : Task) (c : Context) (poolName : list string) :
  ExecuteWithContext env fn c poolName start =
  let closure := call (scheduled env fn (detached env c)) in
  match route env poolName with
  | Unpooled w =>
      (mkSched (EvAcquireContext :: match w with Some n => [EvWarnf n] | None => [] end)
               [Goroutine (guarded env closure)], Ok tt)
  | Accepted p =>
      (mkSched [EvAcquireContext; EvSubmit (pool_name p)] [PoolTask p closure], Ok tt)
  | Rejected p e =>
      (mkSched (EvAcquireContext :: EvSubmit (pool_name p) :: recovery env None (VError e))
               [], Ok tt)
  end.
Proof.
  unfold ExecuteWithContext, bind, emit. cbn [log sched_logs start events dispatched app].
  rewrite Execute_route. fold (detached env c).
  destruct (route env poolName) as [w|p|p e]; reflexivity.
Qed.

(** The threads of an invocation: none when the pool refuses the task,
    else the scheduled closure, under [recoverPanic(nil)] when it runs
    on a goroutine of its own. *)
Lemma ExecuteWithContext_threads (fn : Task) (c : Context) (poolName : list string) :
  threads (fst (ExecuteWithContext env fn c poolName start)) =
  let closure := call (scheduled env fn (detached env c)) in
  match route env poolName with
  | Unpooled _ => [guarded env closure []]
  | Accepted _ => [closure []]
  | Rejected _ _ => []
  end.
Proof.
  rewrite ExecuteWithContext_route.
  destruct (route env poolName) as [w|p|p e]; reflexivity.
Qed.

(** A thread of [ExecuteWithContext] either runs the unit of work and
    ends normally, or stops at a skip pattern that does not compile. *)
Lemma thread_shape (fn : Task) (c : Context) (poolName : list string)
    (th : trace * result unit) :
  th ∈ threads (fst (ExecuteWithContext env fn c poolName start)) ->
  let ec := detached env c in
  let ec' := work_context env ec in
  (exists skipped : bool,
      (if span_started env
       then first_match env (skipTracesEndpoints (config env)) (Path (request c)) = Ok skipped
       else skipped = false) /\
      th = (prelude env ec skipped ++ work_events (fn ec') ++ epilogue env (fn ec') ec',
            Ok tt)) \/
  (exists v,
      span_started env = true /\
      first_match env (skipTracesEndpoints (config env)) (Path (request c)) = Panic v /\
      (th = (prelude env ec false, Panic v) \/
       th = (prelude env ec false ++ recovery env None v, Ok tt))).
Proof.
  rewrite ExecuteWithContext_threads. intros Hth ec ec'.
  assert (Hrun :
    (exists skipped : bool,
      (if span_started env
       then first_match env (skipTracesEndpoints (config env)) (Path (request c)) = Ok skipped
       else skipped = false) /\
      call (scheduled env fn ec) [] =
        (prelude env ec skipped ++ work_events (fn ec') ++ epilogue env (fn ec') ec', Ok tt)) \/
    (exists v, span_started env = true /\
      first_match env (skipTracesEndpoints (config env)) (Path (request c)) = Panic v /\
      call (scheduled env fn ec) [] = (prelude env ec false, Panic v))).
  { destruct (span_started env) eqn:Hspan.
    - destruct (first_match env (skipTracesEndpoints (config env)) (Path (request c)))
        as [skipped|v] eqn:Hscan.
      + left. exists skipped. split; [done|].
        by apply scheduled_run_span.
      + right. exists v. split; [done|]. split; [done|].
        by apply scheduled_run_bad_pattern.
    - left. exists false. split; [done|]. by apply scheduled_run_plain. }
  cbv zeta in Hth. fold ec in Hth.
  destruct (route env poolName) as [w|p|p e].
  - apply list_elem_of_singleton in Hth. subst th. rewrite guarded_run.
    destruct Hrun as [(skipped & Hs & ->)|(v & Hspan & Hscan & ->)].
    + left. by exists skipped.
    + right. exists v. auto.
  - apply list_elem_of_singleton in Hth. subst th.
    destruct Hrun as [(skipped & Hs & ->)|(v & Hspan & Hscan & ->)].
    + left. by exists skipped.
    + right. exists v. auto.
  - by apply elem_of_nil in Hth.
Qed.

End Threads.

Section Counting.

Variable p : event -> bool.

Lemma count_nil : count p [] = 0.
Proof. reflexivity. Qed.

Lemma count_cons (e : event) (tr : trace) :
  count p (e :: tr) = (if p e then 1 else 0) + count p tr.
Proof. unfold count. simpl. by destruct (p e). Qed.

Lemma count_app (tr1 tr2 : trace) : count p (tr1 ++ tr2) = count p tr1 + count p tr2.
Proof. unfold count. by rewrite List.filter_app, length_app. Qed.

Lemma count_effects (ls : list string) :
  (forall l, p (EvWork l) = false) -> count p (map EvWork ls) = 0.
Proof.
  intros Hp. induction ls as [|l ls IH]; [done|].
  cbn [map]. by rewrite count_cons, Hp, IH.
Qed.

Lemma count_work_events (b : Behaviour) :
  (forall l, p (EvWork l) = false) ->
  count p (work_events b) = if p EvInvoke then 1 else 0.
Proof.
  intros Hp. unfold work_events. rewrite count_cons, count_effects by done. lia.
Qed.

Lemma count_pos (tr : trace) : 0 < count p tr <-> exists e, e ∈ tr /\ p e = true.
Proof.
  induction tr as [|e tr IH].
  - rewrite count_nil. split; [lia|]. intros (e & He & _). by apply elem_of_nil in He.
  - rewrite count_cons. destruct (p e) eqn:Hpe.
    + split; [|lia]. intros _. exists e. split; [left|done].
    + simpl. rewrite IH. split.
      * intros (e' & He' & Hp'). exists e'. split; [by right|done].
      * intros (e' & He' & Hp'). apply elem_of_cons in He' as [->|He'].
        -- congruence.
        -- by exists e'.
Qed.

End Counting.

(** Counting over the traces of a thread: split at the appends, count the
    events of the unit of work, then decide by cases on the configuration. *)
Ltac count_events :=
  repeat first
    [ rewrite count_app
    | rewrite count_work_events by reflexivity
    | rewrite count_cons
    | rewrite count_nil ];
  cbn [is_acquire is_release is_invoke is_start_span is_span_finish
       is_sampled_false is_log is_sink].

Section FirstMatch.

Variable env : Env.

(** With skip patterns that all compile, the scan ends, and it ends on
    [true] exactly when a pattern matches the path. *)
Lemma first_match_valid (eps : list string) (path : string) :
  Forall (fun pat => is_Some (regexp_Compile env pat)) eps ->
  exists skipped : bool,
    first_match env eps path = Ok skipped /\
    (skipped = true <-> exists pat, pat ∈ eps /\ matches env path pat).
Proof.
  induction 1 as [|pat eps [re Hre] _ IH]; simpl.
  - exists false. split; [done|]. split; [done|].
    intros (pat & Hin & _). by apply elem_of_nil in Hin.
  - rewrite Hre. destruct (re path) eqn:Hm.
    + exists true. split; [done|]. split; [|done]. intros _.
      exists pat. split; [left|]. by exists re.
    + destruct IH as (skipped & Hscan & Hiff). exists skipped. split; [done|].
      rewrite Hiff. split.
      * intros (pat' & Hin & Hmatch). exists pat'. split; [by right|done].
      * intros (pat' & Hin & Hmatch). apply elem_of_cons in Hin as [->|Hin].
        -- destruct Hmatch as (re' & Hre' & Hm'). congruence.
        -- by exists pat'.
Qed.

(** The scan ends on [true] exactly when, going through the patterns in
    order, a match is found before a pattern fails to compile. *)
Lemma first_match_finds (eps : list string) (path : string) :
  first_match env eps path = Ok true <-> finds_match env path eps.
Proof.
  induction eps as [|e eps IH]; simpl.
  - split; [done|]. intros (before & pat & after & Heq & _). by destruct before.
  - destruct (regexp_Compile env e) as [re|] eqn:Hre.
    + destruct (re path) eqn:Hm.
      * split; [intros _|done]. exists [], e, eps. split; [done|].
        split; [constructor|]. by exists re.
      * rewrite IH. split.
        -- intros (before & pat & after & -> & Hmiss & Hmatch).
           exists (e :: before), pat, after. split; [done|].
           split; [|done]. constructor; [by exists re|done].
        -- intros (before & pat & after & Heq & Hmiss & Hmatch).
           destruct before as [|b before]; simplify_eq/=.
           ++ destruct Hmatch as (re' & Hre' & Hm'). congruence.
           ++ exists before, pat, after. split; [done|].
              split; [by inversion Hmiss|done].
    + split; [done|].
      intros (before & pat & after & Heq & Hmiss & Hmatch).
      destruct before as [|b before]; simplify_eq/=.
      * destruct Hmatch as (re' & Hre' & _). congruence.
      * inversion Hmiss as [|? ? (re' & Hre' & _) _]. congruence.
Qed.

(** When every pattern compiles, a match is found exactly when some
    pattern matches. *)
Lemma finds_match_valid (eps : list string) (path : string) :
  Forall (fun pat => is_Some (regexp_Compile env pat)) eps ->
  finds_match env path eps <-> exists pat, pat ∈ eps /\ matches env path pat.
Proof.
  intros Hvalid. rewrite <- first_match_finds.
  destruct (first_match_valid eps path Hvalid) as (skipped & Hscan & Hiff).
  rewrite Hscan, <- Hiff. split; congruence.
Qed.

(** The scan stops at the first match: the patterns after it are not
    looked at, not even compiled. *)
Lemma first_match_stops (before after : list string) (pat path : string) :
  matches env path pat ->
  first_match env (before ++ pat :: after) path = first_match env (before ++ [pat]) path.
Proof.
  intros (re & Hre & Hm). induction before as [|e before IH]; simpl.
  - by rewrite Hre, Hm.
  - destruct (regexp_Compile env e) as [re'|]; [|done]. by destruct (re' path).
Qed.

End FirstMatch.

(** ** The executor without a request context *)

Section ExecuteClaims.

Variable env : Env.

(** A unit of work on the unpooled path runs once, under
    [recoverPanic(nil)]: a panic of the work is recovered there. *)
Lemma guarded_work (b : Behaviour) :
  guarded env (run_work b) [] =
  (work_events b ++ match finish b with Some v => recovery env None v | None => [] end,
   Ok tt).
Proof.
  rewrite guarded_run, run_work_logs, logs_trace. simpl.
  destruct (finish b); [done|]. by rewrite app_nil_r.
Qed.

(** C1: when the pool is found and [Submit] answers an error, [Execute]
    returns normally to its caller, nothing is dispatched, and the error
    goes, as a panic value, through [recoverPanic(nil)]: the events after
    the submission are those of a recovery, the ones a panicking unit of
    work causes on the unpooled path, and the error is logged. *)
Theorem Execute_submit_failure_is_recovered
    (fn : St trace unit) (name : string) (rest : list string)
    (p : Pool) (e : error_value) (s : Sched) :
  GetPool env name = (Some p, None) ->
  Submit_error p = Some e ->
  let out := Execute env fn (name :: rest) s in
  snd out = Ok tt /\
  dispatched (fst out) = dispatched s /\
  events (fst out) = events s ++ EvSubmit (pool_name p) :: recovery env None (VError e) /\
  EvLoggerError (VError e) ∈ recovery env None (VError e) /\
  (forall (b : Behaviour) (v : value), finish b = Some v ->
     guarded env (run_work b) [] = (work_events b ++ recovery env None v, Ok tt)).
Proof.
  intros Hpool Hsub out. subst out. rewrite Execute_route.
  unfold route. rewrite Hpool, Hsub. cbn [fst snd events dispatched].
  repeat split.
  - rewrite recovery_events. apply elem_of_app. right. left.
  - intros b v Hv. by rewrite guarded_work, Hv.
Qed.

(** C4: when the pool name resolves to no live pool (the lookup answers
    an error, or a nil pool), [Execute] logs the warning with the name
    and starts one goroutine, the unit of work under [recoverPanic(nil)];
    that goroutine enters the work exactly once and ends normally,
    whether the work returns or panics. *)
Theorem Execute_missing_pool_falls_back
    (b : Behaviour) (name : string) (rest : list string) (s : Sched) :
  snd (GetPool env name) <> None \/ fst (GetPool env name) = None ->
  let out := Execute env (run_work b) (name :: rest) s in
  snd out = Ok tt /\
  events (fst out) = events s ++ [EvWarnf name] /\
  dispatched (fst out) = dispatched s ++ [Goroutine (guarded env (run_work b))] /\
  exists tr,
    guarded env (run_work b) [] = (tr, Ok tt) /\
    tr = work_events b ++
         match finish b with Some v => recovery env None v | None => [] end /\
    count is_invoke tr = 1.
Proof.
  intros Hmiss out. subst out. rewrite Execute_route.
  assert (route env (name :: rest) = Unpooled (Some name)) as ->.
  { unfold route. destruct (GetPool env name) as [[q|] [err|]]; simpl in Hmiss;
      try done. by destruct Hmiss. }
  cbn [fst snd events dispatched]. repeat split.
  eexists. split; [apply guarded_work|]. split; [done|].
  count_events. destruct (finish b) as [v|]; [|done].
  rewrite recovery_events.
  destruct (SentryOn (config env)); count_events; reflexivity.
Qed.

End ExecuteClaims.

Lemma Execute_submit_failure_witness :
  let out := Execute (env_of true 1%float []) (run_work quiet) ["busy"] start in
  snd out = Ok tt /\ dispatched (fst out) = [] /\
  events (fst out) =
    [EvSubmit "busy"; EvHubClone;
     EvScopeSetTag (Clone CurrentHub) "goroutine" "true";
     EvHubRecover (Clone CurrentHub)
       (VError (ErrorString "too many goroutines blocked on submit"));
     EvLoggerError (VError (ErrorString "too many goroutines blocked on submit"))].
Proof.
  pose proof (Execute_submit_failure_is_recovered (env_of true 1%float [])
                (run_work quiet) "busy" []
                (mkPool "busy" (errors_New "too many goroutines blocked on submit"))
                (ErrorString "too many goroutines blocked on submit") start
                eq_refl eq_refl) as (Hr & Hd & He & _).
  split; [exact Hr|]. split; [exact Hd|]. exact He.
Defined.

Lemma Execute_missing_pool_witness :
  let out := Execute (env_of false 0%float []) (run_work boom) ["ghost_pool"] start in
  snd out = Ok tt /\
  events (fst out) = [EvWarnf "ghost_pool"] /\
  threads (fst out) = [([EvInvoke; EvLoggerError (VString "boom")], Ok tt)].
Proof.
  pose proof (Execute_missing_pool_falls_back (env_of false 0%float []) boom
                "ghost_pool" [] start (or_introl (fun H => eq_ind (errors_New "pool not found")
                   (fun e => match e with Some _ => True | None => False end) I None H)))
    as (Hr & He & Hd & _).
  split; [exact Hr|]. split; [exact He|].
  unfold threads. rewrite Hd. reflexivity.
Defined.

(** ** The executor with a request context *)

Section ContextClaims.

Variable env : Env.

Lemma span_started_on : span_started env = true -> SentryOn (config env) = true.
Proof. unfold span_started. by intros [? _]%andb_true_iff. Qed.

Lemma prelude_span (ec : Context) (skipped : bool) :
  span_started env = true ->
  prelude env ec skipped =
  [EvHubClone; EvScopeSetRequest (Clone CurrentHub) (request ec);
   EvStartSpan (span_name ec)] ++ (if skipped then [EvSpanSampledFalse] else []).
Proof.
  intros Hspan. unfold prelude. by rewrite Hspan, (span_started_on Hspan).
Qed.

Lemma prelude_plain (ec : Context) (skipped : bool) :
  span_started env = false ->
  prelude env ec skipped =
  if SentryOn (config env)
  then [EvHubClone; EvScopeSetRequest (Clone CurrentHub) (request ec)]
  else [].
Proof. intros Hspan. unfold prelude. by rewrite Hspan. Qed.

(** Counting in the events before the unit of work. *)
Lemma count_prelude (p : event -> bool) (ec : Context) (skipped : bool) :
  p EvHubClone = false ->
  (forall h r, p (EvScopeSetRequest h r) = false) ->
  count p (prelude env ec skipped) =
  if span_started env
  then (if p (EvStartSpan (span_name ec)) then 1 else 0) +
       (if skipped && p EvSpanSampledFalse then 1 else 0)
  else 0.
Proof.
  intros Hclone Hreq. destruct (span_started env) eqn:Hspan.
  - rewrite prelude_span by done. cbn [app].
    rewrite !count_cons, Hclone, Hreq.
    destruct skipped; cbn [andb]; rewrite ?count_cons, count_nil; lia.
  - rewrite prelude_plain by done.
    destruct (SentryOn (config env)); [|done].
    by rewrite !count_cons, Hclone, Hreq, count_nil.
Qed.

(** Counting in the events of a recovery. *)
Lemma count_recovery (p : event -> bool) (c : option Context) (v : value) :
  p EvHubClone = false ->
  (forall h r, p (EvScopeSetRequest h r) = false) ->
  (forall h k x, p (EvScopeSetTag h k x) = false) ->
  count p (recovery env c v) =
  (if SentryOn (config env) && p (EvHubRecover (Clone CurrentHub) v) then 1 else 0) +
  (if p (EvLoggerError v) then 1 else 0).
Proof.
  intros Hclone Hreq Htag. rewrite recovery_events.
  destruct (SentryOn (config env)); cbn [andb app];
    [|by rewrite count_cons, count_nil].
  destruct c; cbn [app]; rewrite !count_cons, ?Hclone, ?Hreq, ?Htag, count_nil; lia.
Qed.

(** C6: in a thread of [ExecuteWithContext] whose unit of work was
    entered and panics with [v], the events of [recoverPanic(ec)] come
    while the context has not been released (no release before or among
    them), the release of that same context follows them, and the thread
    ends normally. *)
Theorem recovery_runs_before_release
    (fn : Task) (c : Context) (poolName : list string)
    (th : trace * result unit) (v : value) :
  th ∈ threads (fst (ExecuteWithContext env fn c poolName start)) ->
  EvInvoke ∈ fst th ->
  finish (fn (work_context env (detached env c))) = Some v ->
  let ec := work_context env (detached env c) in
  exists pre post,
    fst th = pre ++ recovery env (Some ec) v ++ EvReleaseContext ec :: post /\
    EvInvoke ∈ pre /\
    count is_release pre = 0 /\
    count is_release (recovery env (Some ec) v) = 0 /\
    EvLoggerError v ∈ recovery env (Some ec) v /\
    count is_release post = 0 /\
    snd th = Ok tt.
Proof.
  intros Hth Hrun Hpanic ec.
  destruct (thread_shape env fn c poolName th Hth) as [(skipped & _ & ->)|(w & Hspan & _ & Hbad)].
  - unfold epilogue. rewrite Hpanic. fold ec. cbn [fst snd].
    exists (prelude env (detached env c) skipped ++ work_events (fn ec)),
           (if span_started env then [EvSpanFinish] else []).
    split; [by rewrite <- !app_assoc|].
    split; [apply elem_of_app; right; left|].
    split; [rewrite count_app, count_prelude, count_work_events by done;
            by destruct (span_started env), skipped|].
    split; [rewrite count_recovery by done; by destruct (SentryOn (config env))|].
    split; [rewrite recovery_events; apply elem_of_app; right; left|].
    split; [by destruct (span_started env)|done].
  - exfalso.
    assert (0 < count is_invoke (fst th)) as Hpos.
    { apply count_pos. by exists EvInvoke. }
    destruct Hbad as [-> | ->]; cbn [fst] in Hpos;
      rewrite ?count_app, count_prelude, ?count_recovery, Hspan in Hpos by done;
      simpl in Hpos; rewrite ?andb_false_r in Hpos; simpl in Hpos; lia.
Qed.

End ContextClaims.

(** The scenario of a panicking unit of work on the pool ["workers"], for
    a request to [/ping]. *)
Lemma recovery_runs_before_release_witness :
  let env := env_of true 1%float ["/ping"; "^/$"] in
  let th := thread_of (fst (ExecuteWithContext env (fun _ => boom) (get "/ping")
                              ["workers"] start)) in
  let ec := work_context env (detached env (get "/ping")) in
  exists pre post,
    fst th = pre ++ recovery env (Some ec) (VString "boom") ++ EvReleaseContext ec :: post /\
    count is_release pre = 0 /\
    snd th = Ok tt.
Proof.
  intros env th ec.
  destruct (recovery_runs_before_release env (fun _ => boom) (get "/ping") ["workers"]
              th (VString "boom"))
    as (pre & post & Heq & _ & Hpre & _ & _ & _ & Hend).
  - vm_compute. left.
  - vm_compute. do 4 right. left.
  - reflexivity.
  - exists pre, post. split; [exact Heq|]. split; [exact Hpre|exact Hend].
Defined.

Section ReleaseOrder.

Variable env : Env.

(** With skip patterns that compile, every thread runs the unit of work
    and ends normally. *)
Lemma thread_shape_valid (fn : Task) (c : Context) (poolName : list string)
    (th : trace * result unit) :
  valid_patterns env ->
  th ∈ threads (fst (ExecuteWithContext env fn c poolName start)) ->
  let ec := detached env c in
  let ec' := work_context env ec in
  exists skipped : bool,
    (if span_started env
     then skipped = true <->
          exists pat, pat ∈ skipTracesEndpoints (config env) /\
                      matches env (Path (request c)) pat
     else skipped = false) /\
    th = (prelude env ec skipped ++ work_events (fn ec') ++ epilogue env (fn ec') ec',
          Ok tt).
Proof.
  intros Hvalid Hth ec ec'.
  destruct (first_match_valid env _ (Path (request c)) Hvalid) as (sk & Hscan & Hiff).
  destruct (thread_shape env fn c poolName th Hth)
    as [(skipped & Hs & ->)|(w & Hspan & Hbad & _)]; [|congruence].
  exists skipped. split; [|done].
  destruct (span_started env); [|done].
  assert (skipped = sk) as -> by congruence. done.
Qed.

Lemma closed_before_release_app (pre post : trace) (ec : Context) :
  count is_release pre = 0 ->
  closed_before_release (pre ++ EvReleaseContext ec :: post) =
  negb (existsb is_span_finish post) && closed_before_release post.
Proof.
  induction pre as [|e pre IH]; [done|].
  rewrite count_cons. intros Hpre.
  destruct e; simpl in Hpre; try discriminate; cbn [app closed_before_release];
    apply IH; lia.
Qed.

(** C5, as the code has it: in a thread of [ExecuteWithContext] that
    entered the unit of work, the context is released once, after every
    event of the work and of the recovery; the release is the last event
    when no span was started, and when a span was started the closing of
    the span is the one event after it (released, then closed). *)
Theorem release_then_span_finish
    (fn : Task) (c : Context) (poolName : list string) (th : trace * result unit) :
  th ∈ threads (fst (ExecuteWithContext env fn c poolName start)) ->
  EvInvoke ∈ fst th ->
  exists pre,
    fst th = pre ++ EvReleaseContext (work_context env (detached env c)) ::
                    (if span_started env then [EvSpanFinish] else []) /\
    count is_release pre = 0 /\
    count is_span_finish pre = 0 /\
    release_is_last (fst th) = negb (span_started env) /\
    closed_before_release (fst th) = negb (span_started env).
Proof.
  intros Hth Hrun.
  destruct (thread_shape env fn c poolName th Hth)
    as [(skipped & _ & ->)|(w & Hspan & _ & Hbad)].
  - set (ec := work_context env (detached env c)). cbn [fst].
    set (pre := prelude env (detached env c) skipped ++ work_events (fn ec) ++
                match finish (fn ec) with
                | Some v => recovery env (Some ec) v
                | None => []
                end).
    assert (Hrel : count is_release pre = 0).
    { unfold pre. rewrite !count_app, count_prelude, count_work_events by done.
      destruct (finish (fn ec)); rewrite ?count_recovery by done;
        by destruct (span_started env), skipped, (SentryOn (config env)). }
    assert (Heq : prelude env (detached env c) skipped ++ work_events (fn ec) ++
                  epilogue env (fn ec) ec =
                  pre ++ EvReleaseContext ec ::
                    (if span_started env then [EvSpanFinish] else [])).
    { unfold pre, epilogue. by rewrite <- !app_assoc. }
    rewrite Heq. exists pre. split; [done|]. split; [done|].
    split.
    { unfold pre. rewrite !count_app, count_prelude, count_work_events by done.
      destruct (finish (fn ec)); rewrite ?count_recovery by done;
        by destruct (span_started env), skipped, (SentryOn (config env)). }
    split.
    + unfold release_is_last. destruct (span_started env); cbn [negb].
      * change (pre ++ [EvReleaseContext ec; EvSpanFinish])
          with (pre ++ [EvReleaseContext ec] ++ [EvSpanFinish]).
        by rewrite app_assoc, last_snoc.
      * by rewrite last_snoc.
    + rewrite closed_before_release_app by done.
      by destruct (span_started env).
  - exfalso.
    assert (0 < count is_invoke (fst th)) as Hpos.
    { apply count_pos. by exists EvInvoke. }
    destruct Hbad as [-> | ->]; cbn [fst] in Hpos;
      rewrite ?count_app, count_prelude, ?count_recovery, Hspan in Hpos by done;
      simpl in Hpos; rewrite ?andb_false_r in Hpos; simpl in Hpos; lia.
Qed.

End ReleaseOrder.

(** C5, as stated, fails: with reporting on, sampling rate 1.0 and no
    skip pattern, the thread of a unit of work that returns normally ends
    with the release of the context followed by the closing of the span. *)
Lemma release_is_not_last_with_span :
  exists tr ec,
    threads (fst (ExecuteWithContext (env_of true 1%float []) (fun _ => quiet)
                    (get "/x") [] start)) =
      [(tr ++ [EvReleaseContext ec; EvSpanFinish], Ok tt)] /\
    release_is_last (tr ++ [EvReleaseContext ec; EvSpanFinish]) = false /\
    closed_before_release (tr ++ [EvReleaseContext ec; EvSpanFinish]) = false.
Proof.
  eexists [_; _; _; _; _], _. split; [reflexivity|]. split; reflexivity.
Qed.

Lemma release_then_span_finish_witness :
  let env := env_of true 1%float [] in
  let th := thread_of (fst (ExecuteWithContext env (fun _ => quiet) (get "/x") [] start)) in
  exists pre,
    fst th = pre ++ [EvReleaseContext (work_context env (detached env (get "/x")));
                     EvSpanFinish] /\
    count is_span_finish pre = 0 /\
    release_is_last (fst th) = false.
Proof.
  intros env th.
  destruct (release_then_span_finish env (fun _ => quiet) (get "/x") [] th)
    as (pre & Heq & _ & Hfin & Hlast & _).
  - vm_compute. left.
  - vm_compute. do 3 right. left.
  - exists pre. split; [exact Heq|]. split; [exact Hfin|exact Hlast].
Defined.

Section Spans.

Variable env : Env.

(** The spans and marks of a thread, counted. *)
Lemma thread_marks
    (fn : Task) (c : Context) (poolName : list string) (th : trace * result unit) :
  th ∈ threads (fst (ExecuteWithContext env fn c poolName start)) ->
  count is_start_span (fst th) = (if span_started env then 1 else 0) /\
  count is_sampled_false (fst th) =
    (if span_started env
     then match first_match env (skipTracesEndpoints (config env)) (Path (request c)) with
          | Ok true => 1
          | _ => 0
          end
     else 0).
Proof.
  intros Hth.
  destruct (thread_shape env fn c poolName th Hth)
    as [(skipped & Hsk & ->)|(w & Hspan & Hscan & Hbad)].
  - set (ec := work_context env (detached env c)). cbn [fst].
    split; unfold epilogue;
      rewrite !count_app, count_prelude, count_work_events, count_cons by done.
    + destruct (finish (fn ec)); rewrite ?count_recovery by done;
        by destruct (span_started env), skipped, (SentryOn (config env)).
    + destruct (finish (fn ec)); rewrite ?count_recovery by done;
        (destruct (span_started env); [rewrite Hsk|];
         by destruct skipped, (SentryOn (config env))).
  - rewrite Hspan, Hscan.
    destruct Hbad as [-> | ->]; cbn [fst];
      rewrite ?count_app, !count_prelude, ?count_recovery, Hspan by done;
      cbn [is_start_span is_sampled_false andb]; by rewrite ?andb_false_r.
Qed.

(** The spans of one thread: started by the gate of reporting and
    sampling, and closed when the scan of the skip patterns came through. *)
Lemma thread_spans
    (fn : Task) (c : Context) (poolName : list string) (th : trace * result unit) :
  th ∈ threads (fst (ExecuteWithContext env fn c poolName start)) ->
  count is_start_span (fst th) =
    (if SentryOn (config env) &&
        PrimFloat.ltb 0%float
          (FloatInRange (tracesSampleRate (config env)) 0%float 1%float)
     then 1 else 0) /\
  (SentryOn (config env) = true -> tracesSampleRate (config env) = 0%float ->
   count is_start_span (fst th) = 0 /\
   forall v, finish (fn (work_context env (detached env c))) = Some v ->
     EvHubRecover (Clone CurrentHub) v ∈ fst th /\ EvLoggerError v ∈ fst th) /\
  (valid_patterns env \/ EvInvoke ∈ fst th ->
   count is_span_finish (fst th) = count is_start_span (fst th) /\
   (0 < count is_start_span (fst th) -> last (fst th) = Some EvSpanFinish)).
Proof.
  intros Hth. fold (span_started env).
  destruct (thread_shape env fn c poolName th Hth)
    as [(skipped & _ & ->)|(w & Hspan & Hscan & Hbad)].
  - set (ec := work_context env (detached env c)). cbn [fst].
    assert (Hstart :
      count is_start_span
        (prelude env (detached env c) skipped ++ work_events (fn ec) ++
         epilogue env (fn ec) ec)
      = if span_started env then 1 else 0).
    { unfold epilogue.
      rewrite !count_app, count_prelude, count_work_events, count_cons by done.
      destruct (finish (fn ec)); rewrite ?count_recovery by done;
        by destruct (span_started env), skipped, (SentryOn (config env)). }
    assert (Hfinish :
      count is_span_finish
        (prelude env (detached env c) skipped ++ work_events (fn ec) ++
         epilogue env (fn ec) ec)
      = if span_started env then 1 else 0).
    { unfold epilogue.
      rewrite !count_app, count_prelude, count_work_events, count_cons by done.
      destruct (finish (fn ec)); rewrite ?count_recovery by done;
        by destruct (span_started env), skipped, (SentryOn (config env)). }
    rewrite Hstart, Hfinish.
    split; [done|]. split.
    + intros Hon Hrate.
      assert (span_started env = false) as Hspan.
      { unfold span_started. rewrite Hon, Hrate. reflexivity. }
      split; [by rewrite Hspan|]. intros v Hv.
      unfold epilogue. rewrite Hv, recovery_events, Hon.
      split; (apply elem_of_app; right; apply elem_of_app; right;
              apply elem_of_app; left; apply elem_of_app).
      * left. cbn [app]. do 3 right. left.
      * right. left.
    + intros _. split; [done|].
      unfold epilogue. destruct (span_started env); [intros _|lia].
      change (EvReleaseContext ec :: [EvSpanFinish])
        with ([EvReleaseContext ec] ++ [EvSpanFinish]).
      by rewrite !app_assoc, last_snoc.
  - assert (Hstart : count is_start_span (fst th) = 1).
    { destruct Hbad as [-> | ->]; cbn [fst];
        rewrite ?count_app, count_prelude, ?count_recovery, Hspan by done;
        cbn [is_start_span andb]; by rewrite ?andb_false_r. }
    rewrite Hspan, Hstart. split; [done|]. split.
    + intros Hon Hrate. unfold span_started in Hspan.
      rewrite Hon, Hrate in Hspan. discriminate Hspan.
    + intros [Hvalid|Hrun].
      * destruct (first_match_valid env _ (Path (request c)) Hvalid) as (sk & Hok & _).
        congruence.
      * assert (0 < count is_invoke (fst th)) as Hpos.
        { apply count_pos. by exists EvInvoke. }
        destruct Hbad as [-> | ->]; cbn [fst] in Hpos;
          rewrite ?count_app, count_prelude, ?count_recovery, Hspan in Hpos by done;
          simpl in Hpos; rewrite ?andb_false_r in Hpos; simpl in Hpos; lia.
Qed.

(** C7, as the code has it: an invocation of [ExecuteWithContext] starts
    a span exactly when reporting is on, the sampling rate, clamped to
    [0,1], is above 0, and the closure is run, on a goroutine or by the pool
    that took it; when the pool refuses the closure there is no thread and
    no span, whatever the configuration.  The caller itself starts none: the
    span belongs to the one thread.  In that thread, with reporting on and a
    sampling rate of 0.0, no span is started while a panic of the unit of
    work is still recovered, sent to the sink and logged; and when the skip
    patterns are regular expressions, or the unit of work was reached, a
    span that was started is closed, once, as the last event of the
    thread. *)
Theorem span_iff_reporting_and_sampling
    (fn : Task) (c : Context) (poolName : list string) :
  let s := fst (ExecuteWithContext env fn c poolName start) in
  let gate :=
    SentryOn (config env) &&
    PrimFloat.ltb 0%float
      (FloatInRange (tracesSampleRate (config env)) 0%float 1%float) in
  count is_start_span (all_events s) = (if gate && negb (refused env poolName) then 1 else 0) /\
  count is_start_span (events s) = 0 /\
  length (threads s) = (if refused env poolName then 0 else 1) /\
  (valid_patterns env \/ 0 < count is_invoke (all_events s) ->
   count is_span_finish (all_events s) = count is_start_span (all_events s)) /\
  forall th, th ∈ threads s ->
    count is_start_span (fst th) = (if gate then 1 else 0) /\
    (SentryOn (config env) = true -> tracesSampleRate (config env) = 0%float ->
     count is_start_span (fst th) = 0 /\
     forall v, finish (fn (work_context env (detached env c))) = Some v ->
       EvHubRecover (Clone CurrentHub) v ∈ fst th /\ EvLoggerError v ∈ fst th) /\
    (valid_patterns env \/ EvInvoke ∈ fst th ->
     count is_span_finish (fst th) = count is_start_span (fst th) /\
     (0 < count is_start_span (fst th) -> last (fst th) = Some EvSpanFinish)).
Proof.
  intros s gate. subst s gate. unfold all_events, refused.
  pose proof (thread_spans fn c poolName) as Hthread.
  rewrite ExecuteWithContext_threads in *. rewrite ExecuteWithContext_route.
  cbv zeta in *.
  destruct (route env poolName) as [w|p|p e];
    cbn [fst events map concat length negb] in *; rewrite ?andb_true_r, ?andb_false_r.
  - match goal with
    | |- context [count is_start_span (_ ++ fst ?t ++ [])] =>
        destruct (Hthread t ltac:(left)) as (Hstart & Hzero & Hclosed)
    end.
    rewrite app_nil_r, !count_app. unfold trace in *. rewrite Hstart.
    assert (Hcaller : forall q, q EvAcquireContext = false -> (forall n, q (EvWarnf n) = false) ->
      count q (EvAcquireContext :: match w with Some n => [EvWarnf n] | None => [] end) = 0).
    { intros q Ha Hw. destruct w; rewrite !count_cons, ?Ha, ?Hw, count_nil; done. }
    rewrite !Hcaller by done.
    split; [done|]. split; [done|]. split; [done|]. split; [|exact Hthread].
    intros [Hvalid|Hrun]; cbn [plus].
    + by destruct (Hclosed (or_introl Hvalid)) as (-> & _).
    + cbn [plus] in Hrun.
      apply count_pos in Hrun as (ev & Hin & Hev). destruct ev; try discriminate Hev.
      by destruct (Hclosed (or_intror Hin)) as (-> & _).
  - match goal with
    | |- context [count is_start_span (_ ++ fst ?t ++ [])] =>
        destruct (Hthread t ltac:(left)) as (Hstart & Hzero & Hclosed)
    end.
    rewrite app_nil_r, !count_app. unfold trace in *. rewrite Hstart.
    rewrite !count_cons, !count_nil. cbn [is_start_span is_span_finish is_invoke plus].
    split; [done|]. split; [done|]. split; [done|]. split; [|exact Hthread].
    intros [Hvalid|Hrun].
    + by destruct (Hclosed (or_introl Hvalid)) as (-> & _).
    + apply count_pos in Hrun as (ev & Hin & Hev). destruct ev; try discriminate Hev.
      by destruct (Hclosed (or_intror Hin)) as (-> & _).
  - rewrite app_nil_r, !count_cons, !count_recovery by done.
    cbn [is_start_span is_span_finish andb plus]. rewrite !andb_false_r.
    split; [by destruct (_ && _)|]. split; [done|]. split; [done|].
    split; [done|]. intros th Hth. by apply elem_of_nil in Hth.
Qed.

(** C8, as the code has it: in a thread of [ExecuteWithContext] that started a span, the
    span is marked as not sampled exactly when, matching each skip pattern
    as a regular expression against the path of the request and stopping
    at the first match, a match is found; when every pattern is a regular
    expression that is exactly when the path matches one of the patterns;
    the span is marked at most once and is started all the same; and the
    patterns after the first match are not looked at. *)
Theorem skip_pattern_marks_span_unsampled
    (fn : Task) (c : Context) (poolName : list string) (th : trace * result unit) :
  th ∈ threads (fst (ExecuteWithContext env fn c poolName start)) ->
  0 < count is_start_span (fst th) ->
  (EvSpanSampledFalse ∈ fst th <->
   finds_match env (Path (request c)) (skipTracesEndpoints (config env))) /\
  (valid_patterns env ->
   (EvSpanSampledFalse ∈ fst th <->
    exists pat, pat ∈ skipTracesEndpoints (config env) /\
                matches env (Path (request c)) pat)) /\
  count is_sampled_false (fst th) <= 1 /\
  count is_start_span (fst th) = 1 /\
  (forall before pat after (tr : trace),
     matches env (Path (request c)) pat ->
     skip_traces env (before ++ pat :: after) (Path (request c)) tr =
     skip_traces env (before ++ [pat]) (Path (request c)) tr).
Proof.
  intros Hth Hspan.
  destruct (thread_marks fn c poolName th Hth) as (Hstart & Hsk).
  rewrite Hstart in Hspan |- *.
  destruct (span_started env); [|lia].
  assert (Hmark : EvSpanSampledFalse ∈ fst th <->
                  finds_match env (Path (request c)) (skipTracesEndpoints (config env))).
  { rewrite <- first_match_finds. split.
    - intros Hin.
      assert (0 < count is_sampled_false (fst th)) as Hpos.
      { apply count_pos. by exists EvSpanSampledFalse. }
      rewrite Hsk in Hpos.
      destruct (first_match env _ _) as [[]|]; [done|lia..].
    - intros Hscan. rewrite Hscan in Hsk.
      assert (0 < count is_sampled_false (fst th)) as Hpos by lia.
      apply count_pos in Hpos as (e & He & Hp). by destruct e. }
  split; [done|]. split; [|split; [|split]].
  - intros Hvalid. rewrite Hmark. by apply finds_match_valid.
  - rewrite Hsk. destruct (first_match env _ _) as [[]|]; lia.
  - done.
  - intros before pat after tr Hm.
    rewrite !skip_traces_first_match. by rewrite (first_match_stops env before after pat).
Qed.

End Spans.

Lemma default_patterns_valid (on : bool) (rate : float) :
  valid_patterns (env_of on rate ["/ping"; "^/$"]).
Proof.
  unfold valid_patterns. cbn [env_of config skipTracesEndpoints regexp_Compile].
  repeat constructor; eexists; reflexivity.
Defined.

Lemma span_iff_reporting_and_sampling_witness :
  let env := env_of true 0%float ["/ping"; "^/$"] in
  let th := thread_of (fst (ExecuteWithContext env (fun _ => boom) (get "/ping") [] start)) in
  let sampled := env_of true 1%float ["/ping"; "^/$"] in
  let run poolName :=
    fst (ExecuteWithContext sampled (fun _ => boom) (get "/ping") poolName start) in
  count is_start_span (fst th) = 0 /\
  count is_span_finish (fst th) = 0 /\
  EvHubRecover (Clone CurrentHub) (VString "boom") ∈ fst th /\
  EvLoggerError (VString "boom") ∈ fst th /\
  count is_start_span (all_events (run ["workers"])) = 1 /\
  count is_span_finish (all_events (run ["workers"])) = 1 /\
  count is_start_span (all_events (run ["busy"])) = 0.
Proof.
  intros env th sampled run.
  destruct (span_iff_reporting_and_sampling env (fun _ => boom) (get "/ping") [])
    as (_ & _ & _ & _ & Hth).
  destruct (span_iff_reporting_and_sampling sampled (fun _ => boom) (get "/ping") ["workers"])
    as (Hpool & _ & _ & Hdone & _).
  destruct (span_iff_reporting_and_sampling sampled (fun _ => boom) (get "/ping") ["busy"])
    as (Hbusy & _).
  destruct (Hth th) as (Hstart & Hzero & Hclosed).
  - vm_compute. left.
  - destruct (Hzero eq_refl eq_refl) as (_ & Hrec).
    destruct (Hrec (VString "boom") eq_refl) as (Hsink & Hlog).
    destruct (Hclosed (or_introl (default_patterns_valid true 0%float))) as (Hfinish & _).
    split; [exact Hstart|]. split; [rewrite Hfinish; exact Hstart|].
    split; [exact Hsink|]. split; [exact Hlog|].
    split; [exact Hpool|]. split; [|exact Hbusy].
    etrans; [exact (Hdone (or_introl (default_patterns_valid true 1%float)))|exact Hpool].
Defined.

(** C7, as stated, fails in its last part: with reporting on, sampling
    rate 1.0 and the skip pattern ["("], which is no regular expression,
    [regexp.MustCompile] panics after the span was started and before
    [span.Finish] is deferred; the span is never closed.  It fails in its
    first part too: with reporting on and sampling rate 1.0, a pool that
    refuses the closure leaves no thread behind and no span is created. *)
Lemma span_left_open_by_bad_pattern :
  let env := env_of true 1%float ["("] in
  let th := thread_of (fst (ExecuteWithContext env (fun _ => quiet) (get "/x") [] start)) in
  let refusing := fst (ExecuteWithContext (env_of true 1%float []) (fun _ => quiet)
                         (get "/x") ["busy"] start) in
  threads (fst (ExecuteWithContext env (fun _ => quiet) (get "/x") [] start)) = [th] /\
  count is_start_span (fst th) = 1 /\
  count is_span_finish (fst th) = 0 /\
  span_started (env_of true 1%float []) = true /\
  threads refusing = [] /\
  count is_start_span (all_events refusing) = 0.
Proof. repeat split. Qed.

(** C8, as stated, fails when a pattern that is no regular expression
    comes before the matching one: with the skip patterns ["("] and
    ["/ping"], reporting on and sampling rate 1.0, the span of a request to
    [/ping] is started and [regexp.MustCompile] panics on ["("]; the
    pattern ["/ping"], which the path matches, is not reached and the span
    is not marked. *)
Lemma matching_pattern_behind_bad_one :
  let env := env_of true 1%float ["("; "/ping"] in
  let s := fst (ExecuteWithContext env (fun _ => quiet) (get "/ping") [] start) in
  let th := thread_of s in
  threads s = [th] /\
  count is_start_span (fst th) = 1 /\
  (exists pat, pat ∈ skipTracesEndpoints (config env) /\
               matches env (Path (request (get "/ping"))) pat) /\
  count is_sampled_false (fst th) = 0 /\
  EvSpanSampledFalse ∉ fst th.
Proof.
  intros env s th. split; [reflexivity|]. split; [reflexivity|]. split; [|split].
  - exists "/ping". split; [right; left|]. eexists. split; reflexivity.
  - reflexivity.
  - intros Hin.
    assert (0 < count is_sampled_false (fst th)) as Hpos.
    { apply count_pos. by exists EvSpanSampledFalse. }
    vm_compute in Hpos. lia.
Qed.

(** The scenario of the specification: [/ping] is a skip pattern,
    reporting is on, the sampling rate is 1.0. *)
Lemma skip_pattern_marks_span_unsampled_witness :
  let env := env_of true 1%float ["/ping"; "^/$"] in
  let th := thread_of (fst (ExecuteWithContext env (fun _ => quiet) (get "/ping") [] start)) in
  count is_start_span (fst th) = 1 /\
  EvSpanSampledFalse ∈ fst th /\
  count is_sampled_false (fst th) <= 1.
Proof.
  intros env th.
  destruct (skip_pattern_marks_span_unsampled env (fun _ => quiet) (get "/ping") [] th)
    as (_ & Hiff & Hmost & Hone & _).
  - vm_compute. left.
  - vm_compute. lia.
  - split; [exact Hone|]. split; [|exact Hmost].
    apply (Hiff (default_patterns_valid true 1%float)).
    exists "/ping". split; [left|].
    eexists. split; reflexivity.
Defined.

(** ** Where the executor leaves its contract *)

Section Defects.

Variable env : Env.

(** A unit of work that [Execute] submits to a pool runs there as it
    is, outside [recoverPanic]: when it panics, nothing is logged or
    reported and the panic leaves the task. *)
Lemma pooled_work_runs_unguarded (b : Behaviour) (poolName : list string) (p : Pool) :
  route env poolName = Accepted p ->
  threads (fst (Execute env (run_work b) poolName start)) =
  [(work_events b, match finish b with None => Ok tt | Some v => Panic v end)].
Proof.
  intros Hroute. rewrite Execute_route, Hroute. unfold threads.
  cbn [fst dispatched start app map run_thread].
  by rewrite run_work_logs, logs_trace.
Qed.

(** When the pool refuses the closure of [ExecuteWithContext], the
    closure is dropped with the deferred release in it. *)
Lemma rejected_closure_never_releases
    (fn : Task) (c : Context) (poolName : list string) (p : Pool) (e : error_value) :
  route env poolName = Rejected p e ->
  let s := fst (ExecuteWithContext env fn c poolName start) in
  count is_acquire (all_events s) = 1 /\ count is_release (all_events s) = 0.
Proof.
  intros Hroute s. subst s. unfold all_events.
  rewrite ExecuteWithContext_threads, ExecuteWithContext_route, Hroute.
  cbn [fst events map concat]. rewrite app_nil_r, !count_cons.
  rewrite !count_recovery by done. cbn.
  by rewrite !andb_false_r.
Qed.

(** On every other route, and with skip patterns that compile, the
    context is acquired once and released once. *)
Lemma scheduled_closure_releases_once
    (fn : Task) (c : Context) (poolName : list string) :
  valid_patterns env ->
  (forall p e, route env poolName <> Rejected p e) ->
  let s := fst (ExecuteWithContext env fn c poolName start) in
  count is_acquire (all_events s) = 1 /\ count is_release (all_events s) = 1.
Proof.
  intros Hvalid Hroute s. subst s. unfold all_events.
  pose proof (thread_shape_valid env fn c poolName) as Hshape.
  rewrite ExecuteWithContext_threads in *. rewrite ExecuteWithContext_route.
  cbv zeta in *.
  destruct (route env poolName) as [w|p|p e]; [| |by destruct (Hroute p e)].
  - destruct (Hshape _ Hvalid ltac:(left)) as (skipped & _ & ->).
    cbn [fst events map concat]. rewrite app_nil_r. unfold epilogue.
    rewrite !count_app, !count_cons, !count_prelude, !count_work_events by done.
    destruct w, (finish _); rewrite ?count_recovery by done;
      by destruct (span_started env), skipped, (SentryOn (config env)).
  - destruct (Hshape _ Hvalid ltac:(left)) as (skipped & _ & ->).
    cbn [fst events map concat]. rewrite app_nil_r. unfold epilogue.
    rewrite !count_app, !count_cons, !count_prelude, !count_work_events by done.
    destruct (finish _); rewrite ?count_recovery by done;
      by destruct (span_started env), skipped, (SentryOn (config env)).
Qed.

End Defects.

(** C2, at the input where the code leaves it: the pool ["busy"] is found
    and refuses the submission.  The context was acquired, the closure that
    holds the deferred release never runs, and no release is ever made. *)
Theorem context_not_released_on_submit_failure :
  let s := fst (ExecuteWithContext (env_of false 0%float []) (fun _ => quiet)
                  (get "/x") ["busy"] start) in
  threads s = [] /\
  count is_acquire (all_events s) = 1 /\
  count is_release (all_events s) = 0.
Proof. repeat split. Qed.

(** C3, at the input where the code leaves it: [Execute] with the pool
    ["workers"], which accepts the task, and a unit of work that panics
    with ["boom"].  The pool is handed the unit of work outside
    [recoverPanic]: the panic leaves the task, and neither the log nor the
    sink sees it, with reporting on. *)
Theorem pooled_work_panic_is_not_recovered :
  let s := fst (Execute (env_of true 1%float []) (run_work boom) ["workers"] start) in
  events s = [EvSubmit "workers"] /\
  threads s = [([EvInvoke], Panic (VString "boom"))] /\
  count is_log (all_events s) = 0 /\
  count is_sink (all_events s) = 0.
Proof. repeat split. Qed.

(** ** The JWT helpers *)

Section JwtClaims.
Import Jwt.

Lemma substring_full (s : string) : String.substring 0 (String.length s) s = s.
Proof. induction s as [|a s IH]; simpl; congruence. Qed.

(** The two outcomes of [ExtractJWTFromHeader], by the shape of the
    header. *)
Lemma ExtractJWTFromHeader_cases (c : Context) :
  let h := Header_Get (Header (request c)) "Authorization" in
  (exists x tok,
      tok <> EmptyString /\ h = "Bearer" +:+ String x tok /\
      ExtractJWTFromHeader c = Ok tok) \/
  (~ (8 <= String.length h /\ String.substring 0 6 h = "Bearer") /\
   ExtractJWTFromHeader c = Ok EmptyString).
Proof.
  intros h. unfold ExtractJWTFromHeader. fold h. generalize h. clear h. intros h.
  cbn [String.length Nat.add].
  destruct (decide (7 < String.length h)) as [Hlen|Hlen].
  - destruct h as [|c0 [|c1 [|c2 [|c3 [|c4 [|c5 [|c6 [|c7 tok]]]]]]]];
      simpl in Hlen; try lia.
    unfold slice_to, slice_from.
    destruct (decide (6 <= _)) as [_|Hn]; [|simpl in Hn; lia].
    destruct (decide (7 <= _)) as [_|Hn]; [|simpl in Hn; lia].
    cbn [String.substring String.length Nat.sub].
    rewrite substring_full.
    destruct (String.eqb _ "Bearer") eqn:Heq.
    + apply String.eqb_eq in Heq. injection Heq as -> -> -> -> -> ->.
      left. exists c6, (String c7 tok). by repeat split.
    + right. split; [|done]. intros [_ Hpre].
      apply String.eqb_neq in Heq. by apply Heq.
  - right. split; [|done]. intros [Hlong _]. lia.
Qed.

(** C10: [ExtractJWTFromHeader] answers the header from index 7 on when
    the header has at least 8 bytes and begins with ["Bearer"], whatever
    the byte at index 6 is, and the empty string for every other header;
    an absent header is one of those. *)
Theorem ExtractJWTFromHeader_bearer (c : Context) :
  let h := Header_Get (Header (request c)) "Authorization" in
  ((8 <= String.length h /\ String.substring 0 6 h = "Bearer") /\
   exists x tok,
     h = "Bearer" +:+ String x tok /\
     ExtractJWTFromHeader c = Ok tok /\
     tok = String.substring 7 (String.length h - 7) h) \/
  (~ (8 <= String.length h /\ String.substring 0 6 h = "Bearer") /\
   ExtractJWTFromHeader c = Ok EmptyString /\
   (Header (request c) !! "Authorization" = None -> h = EmptyString)).
Proof.
  intros h. destruct (ExtractJWTFromHeader_cases c) as [(x & tok & Hne & Hh & Hres)|[Hno Hres]];
    fold h in Hh || fold h in Hno.
  - left. rewrite Hh. split.
    + split; [|done]. destruct tok; [done|]. simpl. lia.
    + exists x, tok. split; [done|]. split; [done|].
      simpl. by rewrite ?Nat.sub_0_r, substring_full.
  - right. split; [done|]. split; [done|].
    intros Habs. unfold h, Header_Get. by rewrite Habs.
Qed.

(** The byte after ["Bearer"] is skipped, whatever it is. *)
Example ExtractJWTFromHeader_no_space :
  ExtractJWTFromHeader (demo_request "BearerXabc") = Ok "abc" /\
  ExtractJWTFromHeader (demo_request "Bearer abc") = Ok "abc" /\
  ExtractJWTFromHeader (demo_request "Bearer ") = Ok EmptyString /\
  ExtractJWTFromHeader (demo_request "bearer abc") = Ok EmptyString.
Proof. repeat split. Qed.

Variable Claims : Type.
Variable ParseWithClaims : string -> Claims -> string -> option Token * error.
Variable jwt_secret : string.

(** C9: as long as the parser answers a token whenever it answers no
    error, [ExtractUserInfoFromJWT] returns nil or the error
    ["invalid user token"], and nil exactly when the token parses without
    error and is valid; whatever the parser answers, the result is never
    the error ["token is expired"], whose branch is looked at only when
    the error is nil. *)
Theorem ExtractUserInfoFromJWT_results (c : Context) (claims : Claims) :
  (forall s, snd (ParseWithClaims s claims jwt_secret) = None ->
             fst (ParseWithClaims s claims jwt_secret) <> None) ->
  let r := ExtractUserInfoFromJWT Claims ParseWithClaims jwt_secret c claims in
  (r = Ok None \/ r = Ok (errors_New "invalid user token")) /\
  r <> Ok (errors_New "token is expired") /\
  exists tokenString,
    ExtractJWTFromHeader c = Ok tokenString /\
    (r = Ok None <->
     exists tok, ParseWithClaims tokenString claims jwt_secret = (Some tok, None) /\
                 Valid tok = true).
Proof.
  intros Hlib r. subst r. unfold ExtractUserInfoFromJWT.
  assert (exists s, ExtractJWTFromHeader c = Ok s) as [s Hs].
  { destruct (ExtractJWTFromHeader_cases c) as [(x & tok & _ & _ & H)|[_ H]]; eauto. }
  rewrite Hs. specialize (Hlib s).
  destruct (ParseWithClaims s claims jwt_secret) as [tok [err|]] eqn:Hparse; simpl in Hlib.
  - split; [by right|]. split; [done|]. exists s. split; [done|].
    split; [done|]. intros (tok' & Hp & _). congruence.
  - destruct tok as [tok|]; [|by destruct Hlib].
    destruct (Valid tok) eqn:Hvalid.
    + split; [by left|]. split; [done|]. exists s. split; [done|].
      split; [|done]. intros _. by exists tok.
    + split; [by right|]. split; [done|]. exists s. split; [done|].
      split; [done|]. intros (tok' & Hp & Hv). congruence.
Qed.

(** The branch of the expired token is dead for every answer of the
    parser, a nil token included. *)
Lemma ExtractUserInfoFromJWT_never_expired (c : Context) (claims : Claims) :
  ExtractUserInfoFromJWT Claims ParseWithClaims jwt_secret c claims
  <> Ok (errors_New "token is expired").
Proof.
  unfold ExtractUserInfoFromJWT.
  destruct (ExtractJWTFromHeader c) as [s|v]; [|done].
  destruct (ParseWithClaims s claims jwt_secret) as [[tok|] [err|]]; try done.
  by destruct (Valid tok).
Qed.

End JwtClaims.

(** An expired token is reported as ["invalid user token"]. *)
Lemma ExtractUserInfoFromJWT_results_witness :
  Jwt.ExtractUserInfoFromJWT unit Jwt.demo_parser "secret"
    (Jwt.demo_request "Bearer stale") tt = Ok (errors_New "invalid user token") /\
  Jwt.ExtractUserInfoFromJWT unit Jwt.demo_parser "secret"
    (Jwt.demo_request "Bearer good") tt = Ok None.
Proof.
  split.
  - destruct (ExtractUserInfoFromJWT_results unit Jwt.demo_parser "secret"
                (Jwt.demo_request "Bearer stale") tt) as ([Hnil|Hinv] & _).
    + intros s. unfold Jwt.demo_parser. destruct (String.eqb s "good"); [done|].
      simpl. discriminate.
    + vm_compute in Hnil. discriminate Hnil.
    + exact Hinv.
  - reflexivity.
Defined.

(** ** More on the executor *)

Section MoreOnExecute.

Variable env : Env.

(** X1: both entry points return normally to their caller, whatever the
    unit of work, the pool names, the registry and the state of the pool,
    and they keep what the caller had dispatched before. *)
Theorem entry_points_return_normally
    (fn : St trace unit) (task : Task) (c : Context) (poolName : list string) (s : Sched) :
  snd (Execute env fn poolName s) = Ok tt /\
  snd (ExecuteWithContext env task c poolName s) = Ok tt /\
  (exists more, dispatched (fst (Execute env fn poolName s)) = dispatched s ++ more) /\
  (exists more, dispatched (fst (ExecuteWithContext env task c poolName s)) =
                dispatched s ++ more).
Proof.
  unfold ExecuteWithContext, bind, emit. rewrite !Execute_route.
  destruct (route env poolName) as [w|p|p e]; cbn [fst snd dispatched log sched_logs];
    repeat split; eauto; exists []; by rewrite app_nil_r.
Qed.

(** X2: under [Execute] the unit of work is entered once on a thread of
    its own, except when the pool is found and refuses the task: then the
    work is dropped, never entered, and the refusal is logged once. *)
Theorem work_runs_once_unless_refused (b : Behaviour) (poolName : list string) :
  let s := fst (Execute env (run_work b) poolName start) in
  match route env poolName with
  | Rejected p e =>
      count is_invoke (all_events s) = 0 /\
      threads s = [] /\
      EvLoggerError (VError e) ∈ events s
  | _ =>
      count is_invoke (all_events s) = 1 /\
      count is_invoke (events s) = 0 /\
      length (threads s) = 1
  end.
Proof.
  intros s. subst s. unfold all_events, threads. rewrite Execute_route.
  destruct (route env poolName) as [w|p|p e];
    cbn [fst events dispatched start app map run_thread concat].
  - rewrite guarded_work. cbn [fst]. rewrite app_nil_r. repeat split.
    + destruct w, (finish b); count_events; rewrite ?count_recovery by done;
        by destruct (SentryOn (config env)).
    + by destruct w.
  - rewrite run_work_logs, logs_trace. cbn [fst app]. rewrite app_nil_r.
    repeat split. by count_events.
  - rewrite app_nil_r. repeat split.
    + rewrite count_cons, count_recovery by done.
      by destruct (SentryOn (config env)).
    + right. rewrite recovery_events. apply elem_of_app. right. left.
Qed.

(** X3: with reporting off nothing reaches the sink, on any route and
    whether the unit of work panics or not: no hub is cloned, no span is
    started, nothing is captured. *)
Theorem reporting_off_never_reaches_sink
    (b : Behaviour) (fn : Task) (c : Context) (poolName : list string) :
  SentryOn (config env) = false ->
  count is_sink (all_events (fst (Execute env (run_work b) poolName start))) = 0 /\
  count is_sink (all_events (fst (ExecuteWithContext env fn c poolName start))) = 0.
Proof.
  intros Hoff.
  assert (Hrec : forall c' v, recovery env c' v = [EvLoggerError v]).
  { intros c' v. by rewrite recovery_events, Hoff. }
  assert (Hspan : span_started env = false).
  { unfold span_started. by rewrite Hoff. }
  split; unfold all_events, threads.
  - rewrite Execute_route.
    destruct (route env poolName) as [w|p|p e];
      cbn [fst events dispatched start app map run_thread concat].
    + rewrite guarded_work. cbn [fst]. rewrite app_nil_r.
      destruct w, (finish b); rewrite ?Hrec; by count_events.
    + rewrite run_work_logs, logs_trace. cbn [fst app].
      rewrite app_nil_r. by count_events.
    + by rewrite Hrec.
  - pose proof (scheduled_run_plain env fn (detached env c) eq_refl Hspan) as Hrun.
    rewrite ExecuteWithContext_route. cbv zeta.
    destruct (route env poolName) as [w|p|p e];
      cbn [fst events dispatched start app map run_thread concat].
    + rewrite guarded_run, Hrun. cbn [fst]. rewrite app_nil_r.
      rewrite prelude_plain, Hoff by done. unfold epilogue. rewrite Hspan.
      destruct w, (finish _); rewrite ?Hrec; by count_events.
    + rewrite Hrun. cbn [fst]. rewrite app_nil_r.
      rewrite prelude_plain, Hoff by done. unfold epilogue. rewrite Hspan.
      destruct (finish _); rewrite ?Hrec; by count_events.
    + by rewrite Hrec.
Qed.

End MoreOnExecute.

Lemma reporting_off_never_reaches_sink_witness :
  let env := env_of false 1%float ["/ping"] in
  count is_sink (all_events (fst (Execute env (run_work boom) ["busy"] start))) = 0 /\
  count is_sink (all_events (fst (ExecuteWithContext env (fun _ => boom) (get "/ping")
                                    [] start))) = 0.
Proof.
  intros env. split.
  - exact (proj1 (reporting_off_never_reaches_sink env boom (fun _ => boom)
                    (get "/ping") ["busy"] eq_refl)).
  - exact (proj2 (reporting_off_never_reaches_sink env boom (fun _ => boom)
                    (get "/ping") [] eq_refl)).
Defined.

Section BadPattern.

Variable env : Env.

Lemma first_match_panics (before after : list string) (bad path : string) :
  Forall (misses env path) before ->
  regexp_Compile env bad = None ->
  first_match env (before ++ bad :: after) path = Panic (MustCompile_panic env bad).
Proof.
  intros Hmiss Hbad. induction Hmiss as [|e before (re & Hre & Hm) _ IH]; simpl.
  - by rewrite Hbad.
  - by rewrite Hre, Hm.
Qed.

(** X4: when a span is to be started and the scan of the skip patterns
    comes to a pattern that does not compile, the closure of
    [ExecuteWithContext] ends there: the span is started and not closed,
    the unit of work is not entered, the context is not released.  The
    panic is the one of [regexp.MustCompile], with the quoted pattern and
    the error of [regexp.Compile] in its message: on a goroutine of its own
    it is recovered by [recoverPanic(nil)] and logged; on a pool it leaves
    the task, and nothing is logged. *)
Theorem bad_pattern_stops_closure
    (fn : Task) (c : Context) (poolName : list string) (th : trace * result unit)
    (before after : list string) (bad : string) :
  SentryOn (config env) = true ->
  PrimFloat.ltb 0%float
    (FloatInRange (tracesSampleRate (config env)) 0%float 1%float) = true ->
  skipTracesEndpoints (config env) = before ++ bad :: after ->
  Forall (misses env (Path (request c))) before ->
  regexp_Compile env bad = None ->
  th ∈ threads (fst (ExecuteWithContext env fn c poolName start)) ->
  let v := VString ("regexp: Compile(" +:+ regexp_quote env bad +:+ "): " +:+
                    regexp_Compile_error env bad) in
  count is_start_span (fst th) = 1 /\
  count is_span_finish (fst th) = 0 /\
  count is_invoke (fst th) = 0 /\
  count is_release (fst th) = 0 /\
  match route env poolName with
  | Accepted _ => snd th = Panic v /\ count is_log (fst th) = 0
  | _ => snd th = Ok tt /\ EvLoggerError v ∈ fst th
  end.
Proof.
  intros Hon Hrate Hpats Hmiss Hbad Hth v.
  assert (Hspan : span_started env = true).
  { unfold span_started. by rewrite Hon, Hrate. }
  assert (Hscan : first_match env (skipTracesEndpoints (config env))
                    (Path (request (detached env c))) = Panic v).
  { rewrite Hpats. by apply first_match_panics. }
  pose proof (scheduled_run_bad_pattern env fn (detached env c) eq_refl v Hspan Hscan)
    as Hrun.
  rewrite ExecuteWithContext_threads in Hth. cbv zeta in Hth.
  destruct (route env poolName) as [w|p|p e].
  - apply list_elem_of_singleton in Hth. subst th.
    rewrite guarded_run, Hrun. cbn [fst snd].
    rewrite !count_app, !count_prelude, !count_recovery, Hspan, Hon by done.
    repeat split.
    apply elem_of_app. right. rewrite recovery_events.
    apply elem_of_app. right. left.
  - apply list_elem_of_singleton in Hth. subst th. rewrite Hrun. cbn [fst snd].
    rewrite !count_prelude, Hspan by done. repeat split.
  - by apply elem_of_nil in Hth.
Qed.

(** The context the unit of work is given. *)
Lemma thread_enters_work
    (fn : Task) (c : Context) (poolName : list string) (th : trace * result unit) :
  th ∈ threads (fst (ExecuteWithContext env fn c poolName start)) ->
  EvInvoke ∈ fst th ->
  exists pre post,
    fst th = pre ++ work_events (fn (work_context env (detached env c))) ++ post.
Proof.
  intros Hth Hrun.
  destruct (thread_shape env fn c poolName th Hth)
    as [(skipped & _ & ->)|(w & Hspan & _ & Hbad)]; [by eauto|].
  exfalso.
  assert (0 < count is_invoke (fst th)) as Hpos.
  { apply count_pos. by exists EvInvoke. }
  destruct Hbad as [-> | ->]; cbn [fst] in Hpos;
    rewrite ?count_app, count_prelude, ?count_recovery, Hspan in Hpos by done;
    simpl in Hpos; rewrite ?andb_false_r in Hpos; simpl in Hpos; lia.
Qed.

(** X5: the context handed to the unit of work carries the method, the
    path and the headers of the request it was detached from, so that the
    token of the [Authorization] header reads the same in the background;
    its request context is not the one of the request; and of the values
    stored in a context it holds only the hub under the key ["sentry"],
    when reporting is on: what was stored in the original context, or left
    in the pooled one, is not there. *)
Theorem work_context_carries_request
    (fn : Task) (c : Context) (poolName : list string) (th : trace * result unit) :
  th ∈ threads (fst (ExecuteWithContext env fn c poolName start)) ->
  EvInvoke ∈ fst th ->
  exists ec pre post,
    fst th = pre ++ work_events (fn ec) ++ post /\
    Method (request ec) = Method (request c) /\
    Path (request ec) = Path (request c) /\
    Header (request ec) = Header (request c) /\
    Jwt.ExtractJWTFromHeader ec = Jwt.ExtractJWTFromHeader c /\
    (forall key,
       Bean.Get ec key =
       if SentryOn (config env) && String.eqb "sentry" key
       then Some (Clone CurrentHub) else None) /\
    GetHubFromContext (Ctx (request ec)) =
      (if span_started env then Some (Clone CurrentHub) else None).
Proof.
  intros Hth Hrun.
  destruct (thread_enters_work fn c poolName th Hth Hrun) as (pre & post & Heq).
  exists (work_context env (detached env c)), pre, post. split; [done|].
  unfold work_context, span_started, Jwt.ExtractJWTFromHeader, Bean.Get.
  destruct (SentryOn (config env)); cbn [andb];
    [destruct (PrimFloat.ltb _ _)|]; repeat split; done.
Qed.

End BadPattern.

Lemma bad_pattern_stops_closure_witness :
  let env := env_of true 1%float ["^/$"; "("; "/ping"] in
  let run poolName :=
    thread_of (fst (ExecuteWithContext env (fun _ => quiet) (get "/ping") poolName start)) in
  let v := VString "regexp: Compile(`(`): error parsing regexp: missing closing ): `(`" in
  snd (run ["workers"]) = Panic v /\
  snd (run []) = Ok tt /\
  EvLoggerError v ∈ fst (run []) /\
  count is_release (fst (run [])) = 0.
Proof.
  intros env run v.
  assert (Hmiss : Forall (misses env (Path (request (get "/ping")))) ["^/$"]).
  { repeat constructor. eexists. split; reflexivity. }
  destruct (bad_pattern_stops_closure env (fun _ => quiet) (get "/ping") ["workers"]
              (run ["workers"]) ["^/$"] ["/ping"] "(" eq_refl eq_refl eq_refl Hmiss eq_refl)
    as (_ & _ & _ & _ & Hpool & _); [vm_compute; left|].
  destruct (bad_pattern_stops_closure env (fun _ => quiet) (get "/ping") []
              (run []) ["^/$"] ["/ping"] "(" eq_refl eq_refl eq_refl Hmiss eq_refl)
    as (_ & _ & _ & Hrel & Hend & Hlog); [vm_compute; left|].
  split; [exact Hpool|]. split; [exact Hend|]. split; [exact Hlog|exact Hrel].
Defined.

Lemma work_context_carries_request_witness :
  let env := env_of true 1%float [] in
  let c := mkContext (mkRequest "POST" "/orders" {[ "Authorization" := ["Bearer abc"] ]} TODO)
                     [("user", CurrentHub)] in
  let th := thread_of (fst (ExecuteWithContext env (fun _ => quiet) c [] start)) in
  exists ec pre post,
    fst th = pre ++ work_events quiet ++ post /\
    Jwt.ExtractJWTFromHeader ec = Ok "abc" /\
    Bean.Get ec "user" = None /\
    Bean.Get ec "sentry" = Some (Clone CurrentHub).
Proof.
  intros env c th.
  destruct (work_context_carries_request env (fun _ => quiet) c [] th)
    as (ec & pre & post & Heq & _ & _ & _ & Hjwt & Hget & _).
  - vm_compute. left.
  - vm_compute. do 3 right. left.
  - exists ec, pre, post. split; [exact Heq|]. split; [exact Hjwt|].
    split; [exact (Hget "user")|exact (Hget "sentry")].
Defined.

Section MoreOnJwt.
Import Jwt.

Variable Claims : Type.
Variable ParseWithClaims : string -> Claims -> string -> option Token * error.
Variable jwt_secret : string.

(** X6: with a parser that refuses the empty token, every request whose
    [Authorization] header is absent, shorter than 8 bytes or not begun by
    ["Bearer"] is answered ["invalid user token"]: the header is not
    looked at beyond that, the parser is given the empty string. *)
Theorem ExtractUserInfoFromJWT_without_bearer (c : Context) (claims : Claims) :
  snd (ParseWithClaims EmptyString claims jwt_secret) <> None ->
  let h := Header_Get (Header (request c)) "Authorization" in
  ~ (8 <= String.length h /\ String.substring 0 6 h = "Bearer") ->
  ExtractUserInfoFromJWT Claims ParseWithClaims jwt_secret c claims =
  Ok (errors_New "invalid user token").
Proof.
  intros Hparse h Hshape. unfold ExtractUserInfoFromJWT.
  destruct (ExtractJWTFromHeader_cases c) as [(x & tok & Hne & Hh & _)|[_ ->]].
  - exfalso. apply Hshape. fold h in Hh. rewrite Hh. split; [|done].
    destruct tok; [done|]. simpl. lia.
  - destruct (ParseWithClaims EmptyString claims jwt_secret) as [tok [err|]]; [done|].
    by destruct Hparse.
Qed.

End MoreOnJwt.

Lemma ExtractUserInfoFromJWT_without_bearer_witness :
  Jwt.ExtractUserInfoFromJWT unit Jwt.demo_parser "secret"
    (Jwt.demo_request "Basic dXNlcjpwdw==") tt = Ok (errors_New "invalid user token").
Proof.
  apply (ExtractUserInfoFromJWT_without_bearer unit Jwt.demo_parser "secret"
           (Jwt.demo_request "Basic dXNlcjpwdw==") tt).
  - discriminate.
  - intros [_ Hpre]. discriminate Hpre.
Defined.

(** ** bean.go: reporting and error handlers *)

Section BeanReporting.
Import Bean.

(** X7: the unit of work that [ExecuteWithContext] runs can report through
    [SentryCaptureException] and [SentryCaptureMessage] with the context
    it is given: when both switches are on, the error or message is
    captured once, on the hub that the closure bound to that context; when
    the executor's switch is off no hub is bound and, the global [SentryOn]
    being on or not, nothing is captured. *)
Theorem background_capture_uses_bound_hub
    (env : Env) (SentryOn : bool) (fn : Task) (c : Context) (poolName : list string)
    (th : trace * result unit) (err : error) (msg : string) :
  th ∈ threads (fst (ExecuteWithContext env fn c poolName start)) ->
  Async.EvInvoke ∈ fst th ->
  exists ec pre post,
    fst th = pre ++ work_events (fn ec) ++ post /\
    SentryCaptureException SentryOn (Some ec) err =
      (if SentryOn && Async.SentryOn (config env)
       then [EvCaptureException (Clone CurrentHub) err] else []) /\
    SentryCaptureMessage SentryOn (Some ec) msg =
      (if SentryOn && Async.SentryOn (config env)
       then [EvCaptureMessage (Clone CurrentHub) msg] else []).
Proof.
  intros Hth Hrun.
  destruct (thread_enters_work env fn c poolName th Hth Hrun) as (pre & post & Heq).
  exists (work_context env (detached env c)), pre, post. split; [done|].
  unfold SentryCaptureException, SentryCaptureMessage, sentryecho_GetHubFromContext,
    Get, work_context.
  destruct SentryOn, (Async.SentryOn (config env)); cbn [negb andb];
    [destruct (PrimFloat.ltb _ _)|..]; by split.
Qed.

(** X8: with [SentryOn], an exception reported with a context goes to the
    hub last stored in it under the key ["sentry"], values stored under
    other keys and a change of the request make no difference, and after
    [Reset] the context holds no hub: the exception is then dropped, it is
    neither captured nor sent through a clone of the current hub, which
    only happens for a nil context. *)
Theorem capture_follows_stored_hub
    (c : Context) (h : Hub) (key : string) (r : Request) (err : error) :
  SentryCaptureException true (Some (Set_ c "sentry" h)) err = [EvCaptureException h err] /\
  (key <> "sentry" ->
   SentryCaptureException true (Some (Set_ c key h)) err =
   SentryCaptureException true (Some c) err) /\
  SentryCaptureException true (Some (SetRequest c r)) err =
    SentryCaptureException true (Some c) err /\
  SentryCaptureException true (Some (Reset c r)) err = [] /\
  SentryCaptureException true None err =
    [EvHubClone; EvCaptureException (Clone CurrentHub) err].
Proof.
  repeat split.
  intros Hkey. unfold SentryCaptureException, sentryecho_GetHubFromContext, Get.
  cbn [negb Set_ store lookup_store].
  by apply String.eqb_neq in Hkey as ->.
Qed.

Variable V : Type.
Variable SentryOn : bool.

Lemma handle_all_handled (hs more : list ErrorHandlerFunc) (i : nat)
    (err : error) (c : Context) :
  (exists h, h ∈ hs /\ fst (h err c) = true) ->
  handle_all SentryOn (hs ++ more) i err c = handle_all SentryOn hs i err c.
Proof.
  revert i. induction hs as [|g hs IH]; intros i (h & Hin & Hh).
  - by apply elem_of_nil in Hin.
  - cbn [app handle_all]. destruct (g err c) as [handled err'] eqn:Hg.
    destruct handled; [done|].
    rewrite IH; [done|]. apply elem_of_cons in Hin as [->|Hin].
    + rewrite Hg in Hh. discriminate Hh.
    + by exists h.
Qed.

(** X9: error handlers run in the order of their registration and the
    first one that reports the error handled ends the run: handlers
    registered with a later [UseErrorHandlerFuncs] are not called at all
    once a handler registered before reports the error handled. *)
Theorem later_handlers_skipped_once_handled
    (b : Bean V) (more : list ErrorHandlerFunc) (h : ErrorHandlerFunc)
    (err : error) (c : Context) (committed : bool) :
  h ∈ elements (errorHandlerFuncs b) ->
  fst (h err c) = true ->
  DefaultHTTPErrorHandler SentryOn (UseErrorHandlerFuncs b more) err c committed =
  DefaultHTTPErrorHandler SentryOn b err c committed.
Proof.
  intros Hin Hh. unfold DefaultHTTPErrorHandler, UseErrorHandlerFuncs.
  destruct committed; [done|].
  destruct b as [[hs|] v]; cbn [errorHandlerFuncs elements validate] in *.
  - apply handle_all_handled. by exists h.
  - by apply elem_of_nil in Hin.
Qed.

Lemma handle_all_calls (hs : list ErrorHandlerFunc) (i : nat) (err : error) (c : Context) :
  exists n,
    n <= length hs /\
    List.filter is_handle (handle_all SentryOn hs i err c) =
    map (fun k => EvHandle k err) (seq i n).
Proof.
  revert i. induction hs as [|g hs IH]; intros i.
  - by exists 0.
  - cbn [handle_all]. destruct (g err c) as [handled err'].
    assert (Hrep : List.filter is_handle
              match err' with
              | Some _ => if SentryOn then SentryCaptureException SentryOn (Some c) err'
                          else [EvLoggerError err']
              | None => []
              end = []).
    { destruct err'; [|done]. unfold SentryCaptureException.
      destruct SentryOn; [|done]. cbn [negb].
      by destruct (sentryecho_GetHubFromContext c). }
    cbn [List.filter is_handle]. rewrite List.filter_app, Hrep. cbn [app].
    destruct handled.
    + exists 1. split; [simpl; lia|done].
    + destruct (IH (S i)) as (n & Hn & ->). exists (S n). split; [simpl; lia|done].
Qed.

(** X10: a call of the closure of [DefaultHTTPErrorHandler] calls the
    first [n] handlers, in order, for some [n] up to their number, and
    every one of them with the error the closure was called with: the
    error a handler returns is reported, it is not what the next handler
    is given.  Nothing is called once the response is committed. *)
Theorem handlers_get_original_error
    (b : Bean V) (err : error) (c : Context) (committed : bool) :
  exists n,
    n <= length (elements (errorHandlerFuncs b)) /\
    (committed = true -> n = 0) /\
    List.filter is_handle (DefaultHTTPErrorHandler SentryOn b err c committed) =
    map (fun k => EvHandle k err) (seq 0 n).
Proof.
  unfold DefaultHTTPErrorHandler. destruct committed.
  - exists 0. repeat split. lia.
  - destruct (handle_all_calls (elements (errorHandlerFuncs b)) 0 err c) as (n & Hn & Heq).
    exists n. repeat split; done.
Qed.

End BeanReporting.

Section BeanHandlers.
Import Bean.

Variable V : Type.

Lemma handle_all_no_hub (hs : list ErrorHandlerFunc) (i : nat) (err : error) (c : Context) :
  sentryecho_GetHubFromContext c = None ->
  Forall (fun e => is_handle e = true) (handle_all true hs i err c).
Proof.
  intros Hhub. revert i. induction hs as [|g hs IH]; intros i; cbn [handle_all].
  - constructor.
  - destruct (g err c) as [handled err']. constructor; [done|].
    apply Forall_app. split.
    + destruct err'; [|constructor]. unfold SentryCaptureException. cbn [negb].
      rewrite Hhub. constructor.
    + destruct handled; [constructor|apply IH].
Qed.

(** X11: with the global [SentryOn] and a context that holds no hub, the
    errors the handlers return are lost: they are handed to
    [SentryCaptureException], which drops them, and they are not logged;
    the trace of the closure holds the calls of the handlers and nothing
    else. *)
Theorem handler_errors_lost_without_hub
    (b : Bean V) (err : error) (c : Context) (committed : bool) :
  sentryecho_GetHubFromContext c = None ->
  Forall (fun e => is_handle e = true)
         (DefaultHTTPErrorHandler true b err c committed).
Proof.
  intros Hhub. unfold DefaultHTTPErrorHandler. destruct committed; [constructor|].
  by apply handle_all_no_hub.
Qed.

Lemma elem_of_concat {A} (x : A) (ls : list (list A)) :
  x ∈ concat ls <-> exists l, x ∈ l /\ l ∈ ls.
Proof.
  induction ls as [|l ls IH]; cbn [concat].
  - split; [by intros ?%elem_of_nil|intros (l & _ & ?%elem_of_nil); done].
  - rewrite elem_of_app, IH. split.
    + intros [Hx|(l' & Hx & Hl)]; [exists l; split; [done|left]|].
      exists l'. split; [done|by right].
    + intros (l' & Hx & [->|Hl]%elem_of_cons); [by left|]. right. by exists l'.
Qed.

(** What [UseValidation] logs, function by function. *)
Lemma UseValidation_log (fs : list (V -> V * error)) (b : Bean V) :
  snd (UseValidation b fs) =
  concat (imap (fun i f =>
                  match snd (f (fold_left (fun v g => fst (g v)) (take i fs) (validate b))) with
                  | Some e => [EvLoggerError (Some e)]
                  | None => []
                  end) fs).
Proof.
  revert b. induction fs as [|f fs IH]; intros b; [done|].
  cbn [UseValidation]. destruct (f (validate b)) as [v err] eqn:Hf.
  specialize (IH (mkBean (errorHandlerFuncs b) v)).
  destruct (UseValidation (mkBean (errorHandlerFuncs b) v) fs) as [b1 evs].
  cbn [snd validate] in *. rewrite imap_cons. cbn [concat firstn fold_left].
  rewrite Hf. cbn [fst snd]. f_equal; [by destruct err|].
  rewrite IH. f_equal. apply imap_ext. intros i g _. cbn [compose firstn fold_left].
  by rewrite Hf.
Qed.

(** X12: [UseValidation] hands the validator to every function in turn,
    a function that answers an error included: the error is logged, once,
    and the next function goes on from the validator as that function left
    it.  The log holds, in the order of the functions, the error of every
    function that answered one and nothing else.  So registering in two
    calls is registering in one, and the error handlers are left alone. *)
Theorem UseValidation_applies_every_function
    (b : Bean V) (fs1 fs2 : list (V -> V * error)) :
  let fs := fs1 ++ fs2 in
  let input i := fold_left (fun v f => fst (f v)) (take i fs) (validate b) in
  validate (fst (UseValidation b fs)) =
    fold_left (fun v f => fst (f v)) fs (validate b) /\
  UseValidation b fs =
    (fst (UseValidation (fst (UseValidation b fs1)) fs2),
     snd (UseValidation b fs1) ++ snd (UseValidation (fst (UseValidation b fs1)) fs2)) /\
  errorHandlerFuncs (fst (UseValidation b fs)) = errorHandlerFuncs b /\
  length (snd (UseValidation b fs)) <= length fs1 + length fs2 /\
  snd (UseValidation b fs) =
    concat (imap (fun i f => match snd (f (input i)) with
                             | Some e => [EvLoggerError (Some e)]
                             | None => []
                             end) fs) /\
  (forall i f e, fs !! i = Some f -> snd (f (input i)) = Some e ->
     EvLoggerError (Some e) ∈ snd (UseValidation b fs)) /\
  (forall ev, ev ∈ snd (UseValidation b fs) ->
     exists i f e, fs !! i = Some f /\ snd (f (input i)) = Some e /\
                   ev = EvLoggerError (Some e)).
Proof.
  intros fs input. subst fs.
  assert (Hfold : forall (gs : list (V -> V * error)) (b0 : Bean V),
    validate (fst (UseValidation b0 gs)) = fold_left (fun v f => fst (f v)) gs (validate b0) /\
    errorHandlerFuncs (fst (UseValidation b0 gs)) = errorHandlerFuncs b0 /\
    length (snd (UseValidation b0 gs)) <= length gs).
  { induction gs as [|f gs IH]; intros b0; [done|]. cbn [UseValidation fold_left].
    destruct (f (validate b0)) as [v err] eqn:Hf.
    destruct (UseValidation (mkBean (errorHandlerFuncs b0) v) gs) as [b1 evs] eqn:Hrest.
    destruct (IH (mkBean (errorHandlerFuncs b0) v)) as (Hv & Hh & Hl).
    rewrite Hrest in Hv, Hh, Hl. cbn [fst snd validate errorHandlerFuncs] in *.
    repeat split; [done..|]. rewrite length_app. destruct err; simpl; lia. }
  destruct (Hfold (fs1 ++ fs2) b) as (Hv & Hh & Hl). rewrite length_app in Hl.
  split; [done|]. split; [|split; [done|split; [done|]]].
  - clear. revert b. induction fs1 as [|f fs1 IH]; intros b.
    + cbn [app UseValidation fst snd]. by destruct (UseValidation b fs2).
    + cbn [app UseValidation]. destruct (f (validate b)) as [v err].
      rewrite IH.
      destruct (UseValidation (mkBean (errorHandlerFuncs b) v) fs1) as [b1 evs1].
      cbn [fst snd]. destruct (UseValidation b1 fs2) as [b2 evs2]. cbn [fst snd].
      by rewrite app_assoc.
  - rewrite UseValidation_log. fold input. split; [done|]. split.
    + intros i f e Hi He. apply elem_of_concat.
      exists [EvLoggerError (Some e)]. split; [left|].
      apply elem_of_lookup_imap. exists i, f. split; [|done]. unfold input in He. by rewrite He.
    + intros ev Hev. apply elem_of_concat in Hev as (l & Hev & Hl').
      apply elem_of_lookup_imap in Hl' as (i & f & -> & Hi).
      cbn beta in Hev.
      destruct (snd (f (fold_left _ _ _))) as [e|] eqn:He.
      * apply list_elem_of_singleton in Hev as ->. exists i, f, e.
        split; [done|]. split; [exact He|done].
      * by apply elem_of_nil in Hev.
Qed.

End BeanHandlers.

Lemma background_capture_uses_bound_hub_witness :
  let env := env_of true 1%float [] in
  let th := thread_of (fst (ExecuteWithContext env (fun _ => quiet) (get "/x") [] start)) in
  exists ec pre post,
    fst th = pre ++ work_events quiet ++ post /\
    Bean.SentryCaptureException true (Some ec) (errors_New "late") =
      [Bean.EvCaptureException (Clone CurrentHub) (errors_New "late")].
Proof.
  intros env th.
  destruct (background_capture_uses_bound_hub env true (fun _ => quiet) (get "/x") [] th
              (errors_New "late") "")
    as (ec & pre & post & Heq & Herr & _).
  - vm_compute. left.
  - vm_compute. do 3 right. left.
  - exists ec, pre, post. split; [exact Heq|exact Herr].
Defined.

Lemma later_handlers_skipped_once_handled_witness :
  let first : Bean.ErrorHandlerFunc := fun _ _ => (true, None) in
  let late : Bean.ErrorHandlerFunc := fun _ _ => (false, errors_New "late") in
  Bean.DefaultHTTPErrorHandler false
    (Bean.UseErrorHandlerFuncs (Bean.mkBean (Some [first]) tt) [late])
    (errors_New "not found") blank false =
  [Bean.EvHandle 0 (errors_New "not found")].
Proof.
  intros first late.
  rewrite (later_handlers_skipped_once_handled unit false (Bean.mkBean (Some [first]) tt)
             [late] first (errors_New "not found") blank false).
  - reflexivity.
  - left.
  - reflexivity.
Defined.

Lemma handler_errors_lost_without_hub_witness :
  let failing : Bean.ErrorHandlerFunc := fun e _ => (false, e) in
  Forall (fun e => Bean.is_handle e = true)
    (Bean.DefaultHTTPErrorHandler true (Bean.mkBean (Some [failing; failing]) tt)
       (errors_New "boom") blank false) /\
  length (Bean.DefaultHTTPErrorHandler true (Bean.mkBean (Some [failing; failing]) tt)
            (errors_New "boom") blank false) = 2.
Proof.
  intros failing. split; [|reflexivity].
  apply (handler_errors_lost_without_hub unit). reflexivity.
Defined.

(** ** bean.go: what is sent to sentry *)

Section BeforeSendProps.
Import Bean.

Variable ErrorCode Payload : Type.

(** X13: [DefaultBeforeSend] drops an event exactly when the original
    exception is an API error marked as ignorable, and it does so without
    looking at the event; for every exception that is no API error (none at
    all included) the event goes through as it came. *)
Theorem DefaultBeforeSend_drops_only_ignorable
    (event : option (Event ErrorCode Payload)) (ev : Event ErrorCode Payload) (ex : exception ErrorCode) :
  (DefaultBeforeSend (Some ev) (Some ex) = Ok None <->
   exists e, ex = APIErr e /\ Ignorable e = true) /\
  (forall e, Ignorable e = true -> DefaultBeforeSend event (Some (APIErr e)) = Ok None) /\
  ((forall e, ex <> APIErr e) -> DefaultBeforeSend event (Some ex) = Ok event).
Proof.
  split; [|split].
  - split.
    + destruct ex as [| |e| |]; cbn [DefaultBeforeSend]; try discriminate.
      destruct (Ignorable e) eqn:Hign; [by eauto|].
      by destruct (Contexts ev).
    + intros (e & -> & Hign). cbn [DefaultBeforeSend]. by rewrite Hign.
  - intros e Hign. cbn [DefaultBeforeSend]. by rewrite Hign.
  - intros Hno. destruct ex as [| |e| |]; try done. by destruct (Hno e).
Qed.

(** X14: for an API error that is not ignorable, [DefaultBeforeSend]
    writes the status code, the global error code and the message under the
    key ["Error"] of the contexts of the event, replacing what was there,
    and leaves every other context and the rest of the event as they were;
    sending the result through again changes nothing.  An event whose
    contexts are a nil map makes it panic. *)
Theorem DefaultBeforeSend_sets_error_context
    (ev : Event ErrorCode Payload) (e : APIError ErrorCode) :
  Ignorable e = false ->
  match Contexts ev with
  | Some m =>
      exists m',
        DefaultBeforeSend (Some ev) (Some (APIErr e)) = Ok (Some (mkEvent (Some m') (rest ev))) /\
        m' !! "Error" = Some (ErrorContext (HTTPStatusCode e) (GlobalErrCode e) (Error_ e)) /\
        (forall key, key <> "Error" -> m' !! key = m !! key) /\
        DefaultBeforeSend (Some (mkEvent (Some m') (rest ev))) (Some (APIErr e)) =
          Ok (Some (mkEvent (Some m') (rest ev)))
  | None =>
      DefaultBeforeSend (Some ev) (Some (APIErr e)) =
      Panic (VRuntime "assignment to entry in nil map")
  end.
Proof.
  intros Hign. cbn [DefaultBeforeSend]. rewrite Hign.
  destruct (Contexts ev) as [m|]; [|done].
  eexists. split; [done|]. split; [apply lookup_insert_eq|]. split.
  - intros key Hkey. by apply lookup_insert_ne.
  - cbn [Contexts rest]. by rewrite insert_insert_eq.
Qed.

End BeforeSendProps.

Lemma DefaultBeforeSend_sets_error_context_witness :
  let e := Bean.mkAPIError false 404 "100004" "resource not found" in
  let ev : Bean.Event string string :=
    Bean.mkEvent (Some {[ "device" := Bean.OtherContext "arm64" ]}) "event" in
  exists m',
    Bean.DefaultBeforeSend (Some ev) (Some (Bean.APIErr e)) =
      Ok (Some (Bean.mkEvent (Some m') "event")) /\
    m' !! "Error" = Some (Bean.ErrorContext 404 "100004" "resource not found") /\
    m' !! "device" = Some (Bean.OtherContext "arm64").
Proof.
  intros e ev.
  destruct (DefaultBeforeSend_sets_error_context string string ev e eq_refl)
    as (m' & Hres & Herr & Hother & _).
  exists m'. split; [exact Hres|]. split; [exact Herr|].
  rewrite (Hother "device"); [reflexivity|discriminate].
Defined.

(** ** bean.go: the echo instance *)

Section NewEchoProps.
Import Bean.

Variable Options Scope : Type.
Variable os_Stat : string -> error.
Variable os_IsNotExist : error -> bool.
Variable os_MkdirAll : string -> Z -> error.
Variable os_OpenFile : string -> Z -> Z -> option string * error.
Variable filepath_Dir : string -> string.
Variable sentry_init : Options -> error.
Variable CurrVersion : string.

Let boot :=
  NewEcho Options Scope os_Stat os_IsNotExist os_MkdirAll os_OpenFile filepath_Dir
          sentry_init CurrVersion.

(** The sampling gate of [NewEcho]. *)
Let sampling (config : Config Options Scope) : bool :=
  PrimFloat.ltb 0%float
    (Async.FloatInRange (Sentry_TracesSampleRate config) 0%float 1%float).

(** What [NewEcho] has registered when it returns, in order. *)
Lemma NewEcho_registered (config : Config Options Scope)
    (p p' : Process Options Scope) (e : Echo) :
  boot config p = Returned e p' ->
  (exists out,
     use e =
       (if AccessLog_On config then
          [AccessLogger
             (mkLoggerConfig (AccessLog_BodyDump config) out
                (if String.eqb (AccessLog_Path config) "" then []
                 else AccessLog_BodyDumpMaskParam config))]
        else []) ++
       (if Sentry_On config then [SentryEcho true (Sentry_Timeout config)] else []) ++
       [Recover; RequestID; ServerHeader (ProjectName config) CurrVersion;
        BodyLimit (HTTP_BodyLimit config);
        CORS ["*"] (HTTP_AllowedMethod config);
        Secure (XssProtection config) (ContentTypeNosniff config)
               (XFrameOptions config) (HstsMaxAge config)
               (ContentSecurityPolicy config)] ++
       (if Prometheus_On config
        then [Prometheus (Prometheus_SkipEndpoints config)] else []) /\
     (AccessLog_Path config = "" -> out = None)) /\
  pre e =
    (if Sentry_On config && sampling config then [Tracer] else []) ++
    [RemoveTrailingSlash] ++
    (if HTTP_IsHttpsRedirect config then [HTTPSRedirect] else []) /\
  SentryOn p' = Sentry_On config || SentryOn p /\
  (Sentry_On config = true ->
   sentry_Init p' = Sentry_ClientOptions config /\
   exists options, Sentry_ClientOptions config = Some options /\
                   sentry_init options = None) /\
  BeanLogger p' = true /\
  LoggerDebug e = true.
Proof.
  unfold boot, sampling, NewEcho, and_then, debug_log, access_log, sentry_setup,
    open_log, prebuilt.
  destruct (String.eqb (DebugLogPath config) "");
    [|destruct (openFile _ _ _ _ _ (DebugLogPath config)) as [calls [file [err|]]];
      [discriminate|]];
    (destruct (AccessLog_On config);
     [destruct (String.eqb (AccessLog_Path config) "") eqn:Hpath;
      [|destruct (openFile _ _ _ _ _ (AccessLog_Path config)) as [calls' [file' [err'|]]];
        [discriminate|]]|]);
    (destruct (Sentry_On config);
     [destruct (Sentry_ClientOptions config) as [options|]; [|discriminate];
      destruct (sentry_init options) eqn:Hinit; [discriminate|];
      destruct (Sentry_ConfigureScope config)|]);
    cbn [andb orb];
    try destruct (PrimFloat.ltb _ _);
    destruct (HTTP_IsHttpsRedirect config), (Prometheus_On config);
    intros [= <- <-]; cbn;
    try apply String.eqb_neq in Hpath;
    (split; [eexists; split; [try case_decide; try reflexivity|
                              try done; try (intros ?; congruence)]|]);
    repeat split; eauto; try discriminate;
    match goal with
    | H : ~ 0 < length ?l |- _ => destruct l; [reflexivity|simpl in H; lia]
    end.
Qed.

(** X15: the parameters to mask in the dumped bodies are handed to the
    access logger only together with a log file: with the access log on
    and no path configured, the logger, which is the first middleware,
    writes to its default output and masks nothing, whatever
    [BodyDumpMaskParam] lists. *)
Theorem NewEcho_masks_only_with_path (cfg : Config Options Scope)
    (p p' : Process Options Scope) (e : Echo) :
  boot cfg p = Returned e p' ->
  AccessLog_On cfg = true ->
  exists out,
    head (use e) =
      Some (AccessLogger
              (mkLoggerConfig (AccessLog_BodyDump cfg) out
                 (if String.eqb (AccessLog_Path cfg) "" then []
                  else AccessLog_BodyDumpMaskParam cfg))) /\
    (AccessLog_Path cfg = "" -> out = None).
Proof.
  intros Hboot Hon.
  destruct (NewEcho_registered cfg p p' e Hboot) as ((out & Huse & Hout) & _).
  rewrite Hon in Huse. exists out. split; [by rewrite Huse|done].
Qed.

(** X16: when [NewEcho] returns, the sentry middleware is registered
    exactly when sentry is on, the tracer exactly when in addition the
    sampling rate, clamped to [0,1], is above 0, and it comes before the
    other middlewares that run before routing; the global [SentryOn] is
    set when sentry is on and otherwise left as it was; and sentry being
    on, its client was initialised with the configured options, without
    error. *)
Theorem NewEcho_sentry_gate (cfg : Config Options Scope)
    (p p' : Process Options Scope) (e : Echo) :
  boot cfg p = Returned e p' ->
  (SentryEcho true (Sentry_Timeout cfg) ∈ use e <-> Sentry_On cfg = true) /\
  (Tracer ∈ pre e <->
   Sentry_On cfg = true /\
   PrimFloat.ltb 0%float
     (Async.FloatInRange (Sentry_TracesSampleRate cfg) 0%float 1%float) = true) /\
  (Tracer ∈ pre e -> head (pre e) = Some Tracer) /\
  SentryOn p' = Sentry_On cfg || SentryOn p /\
  (Sentry_On cfg = true ->
   exists options,
     Sentry_ClientOptions cfg = Some options /\
     sentry_init options = None /\
     sentry_Init p' = Some options).
Proof.
  intros Hboot.
  destruct (NewEcho_registered cfg p p' e Hboot)
    as ((out & Huse & _) & Hpre & Hon & Hinit & _).
  unfold sampling in Hpre. rewrite Huse, Hpre.
  split; [|split; [|split; [|split; [done|]]]].
  - rewrite !elem_of_app.
    destruct (AccessLog_On cfg), (Sentry_On cfg), (Prometheus_On cfg);
      rewrite ?elem_of_cons, ?elem_of_nil; intuition congruence.
  - rewrite !elem_of_app.
    destruct (Sentry_On cfg), (PrimFloat.ltb _ _), (HTTP_IsHttpsRedirect cfg);
      cbn [andb]; rewrite ?elem_of_cons, ?elem_of_nil; intuition congruence.
  - rewrite !elem_of_app.
    destruct (Sentry_On cfg), (PrimFloat.ltb _ _), (HTTP_IsHttpsRedirect cfg);
      cbn [andb]; rewrite ?elem_of_cons, ?elem_of_nil; intuition congruence.
  - intros Hs. destruct (Hinit Hs) as (Heq & options & Hopt & Hok).
    exists options. by rewrite Heq.
Qed.

(** X17: with sentry on and no client options, [NewEcho] does not return:
    the logger ends the process, at the latest at the check of the
    options.  Then [sentry.Init] has not been called, [SentryOn] is as it
    was, and of the middlewares at most the access logger is registered. *)
Theorem NewEcho_exits_without_client_options (cfg : Config Options Scope)
    (p : Process Options Scope) :
  Sentry_On cfg = true ->
  Sentry_ClientOptions cfg = None ->
  exists why e p',
    boot cfg p = Exited why e p' /\
    (why = ClientOptionsEmpty \/ exists err, why = UnableToOpenLogFile err) /\
    SentryOn p' = SentryOn p /\
    sentry_Init p' = sentry_Init p /\
    pre e = [] /\
    length (use e) <= 1 /\
    Recover ∉ use e.
Proof.
  intros Hon Hopt.
  unfold boot, NewEcho, and_then, debug_log, access_log, sentry_setup, open_log.
  rewrite Hon, Hopt.
  destruct (String.eqb (DebugLogPath cfg) "");
    [|destruct (openFile _ _ _ _ _ (DebugLogPath cfg)) as [calls [file [err|]]]];
    try (destruct (AccessLog_On cfg);
         [destruct (String.eqb (AccessLog_Path cfg) "");
          [|destruct (openFile _ _ _ _ _ (AccessLog_Path cfg)) as [calls' [file' [err'|]]]]|]);
    do 3 eexists; (split; [reflexivity|]); cbn;
    (split; [eauto|]); repeat split; try lia;
    rewrite ?elem_of_cons, ?elem_of_nil; intuition congruence.
Qed.

(** X18: the tracer of the HTTP side and the spans of the executor open
    on the same condition: when the executor reads the switch and the
    sampling rate that [NewEcho] was configured with, a thread of
    [ExecuteWithContext] starts a span exactly when [NewEcho] registered
    the tracer. *)
Theorem tracer_and_async_spans_agree (cfg : Config Options Scope)
    (p p' : Process Options Scope) (e : Echo)
    (env : Env) (fn : Task) (c : Context) (poolName : list string)
    (th : trace * result unit) :
  boot cfg p = Returned e p' ->
  Async.SentryOn (Async.config env) = Sentry_On cfg ->
  tracesSampleRate (Async.config env) = Sentry_TracesSampleRate cfg ->
  th ∈ threads (fst (ExecuteWithContext env fn c poolName start)) ->
  (Tracer ∈ pre e <-> count is_start_span (fst th) = 1) /\
  (Tracer ∉ pre e <-> count is_start_span (fst th) = 0).
Proof.
  intros Hboot Hon Hrate Hth.
  destruct (NewEcho_registered cfg p p' e Hboot) as (_ & Hpre & _).
  destruct (thread_marks env fn c poolName th Hth) as (Hstart & _).
  unfold sampling in Hpre. unfold span_started in Hstart.
  rewrite Hon, Hrate in Hstart. rewrite Hstart, Hpre.
  rewrite !elem_of_app.
  destruct (Sentry_On cfg), (PrimFloat.ltb _ _), (HTTP_IsHttpsRedirect cfg);
    cbn [andb]; rewrite ?elem_of_cons, ?elem_of_nil; intuition congruence.
Qed.

End NewEchoProps.

Lemma NewEcho_masks_only_with_path_witness :
  exists e p',
    Bean.demo_boot (Bean.demo_config "" ["password"] false 0%float None) Bean.demo_process =
      Bean.Returned e p' /\
    head (Bean.use e) = Some (Bean.AccessLogger (Bean.mkLoggerConfig true None [])).
Proof.
  eexists _, _. split; [reflexivity|].
  destruct (NewEcho_masks_only_with_path unit unit (fun _ => None) (fun _ => false)
              (fun _ _ => None) (fun path _ _ => (Some path, None)) (fun path => path)
              (fun _ => None) "v1"
              (Bean.demo_config "" ["password"] false 0%float None) Bean.demo_process
              _ _ eq_refl eq_refl) as (out & Hhead & Hout).
  rewrite (Hout eq_refl) in Hhead. exact Hhead.
Defined.

Lemma NewEcho_sentry_gate_witness :
  exists e p',
    Bean.demo_boot (Bean.demo_config "" [] true 0.5%float (Some tt)) Bean.demo_process =
      Bean.Returned e p' /\
    Bean.Tracer ∈ Bean.pre e /\
    Bean.SentryOn p' = true.
Proof.
  eexists _, _. split; [reflexivity|].
  destruct (NewEcho_sentry_gate unit unit (fun _ => None) (fun _ => false)
              (fun _ _ => None) (fun path _ _ => (Some path, None)) (fun path => path)
              (fun _ => None) "v1"
              (Bean.demo_config "" [] true 0.5%float (Some tt)) Bean.demo_process
              _ _ eq_refl) as (_ & Htracer & _ & Hon & _).
  split; [apply Htracer; by split|exact Hon].
Defined.

Lemma NewEcho_exits_without_client_options_witness :
  exists e p',
    Bean.demo_boot (Bean.demo_config "" [] true 0.5%float None) Bean.demo_process =
      Bean.Exited Bean.ClientOptionsEmpty e p' /\
    Bean.SentryOn p' = false.
Proof.
  destruct (NewEcho_exits_without_client_options unit unit (fun _ => None) (fun _ => false)
              (fun _ _ => None) (fun path _ _ => (Some path, None)) (fun path => path)
              (fun _ => None) "v1"
              (Bean.demo_config "" [] true 0.5%float None) Bean.demo_process
              eq_refl eq_refl) as (why & e & p' & Hboot & _ & Hon & _).
  eexists _, _. split; [reflexivity|]. reflexivity.
Defined.

Lemma tracer_and_async_spans_agree_witness :
  let env := env_of true 0.5%float [] in
  let th := thread_of (fst (ExecuteWithContext env (fun _ => quiet) (get "/x") [] start)) in
  exists e p',
    Bean.demo_boot (Bean.demo_config "" [] true 0.5%float (Some tt)) Bean.demo_process =
      Bean.Returned e p' /\
    (Bean.Tracer ∈ Bean.pre e <-> count is_start_span (fst th) = 1).
Proof.
  intros env th. eexists _, _. split; [reflexivity|].
  apply (tracer_and_async_spans_agree unit unit (fun _ => None) (fun _ => false)
           (fun _ _ => None) (fun path _ _ => (Some path, None)) (fun path => path)
           (fun _ => None) "v1"
           (Bean.demo_config "" [] true 0.5%float (Some tt)) Bean.demo_process
           _ _ env (fun _ => quiet) (get "/x") [] th eq_refl eq_refl eq_refl).
  vm_compute. left.
Defined.

(** ** helpers: the jittered backoff *)

Section BackoffProps.
Import Backoff.

Variable float64_of : Z -> float.
Variable Duration_of : float -> Z.
Variable math_Exp2 : float -> float.
Variable math_Min : float -> float -> float.
Variable math_Abs : float -> float.
Variable draw : Z -> Z.

Let rand := randDuration float64_of Duration_of math_Abs draw.
Let backoff := JitterBackoff float64_of Duration_of math_Exp2 math_Min math_Abs draw.
Let half := half_capped float64_of Duration_of math_Exp2 math_Min.

Lemma randDuration_run (center : Z) (s : list event) :
  rand center s =
  (s ++ [EvLock; EvInt63n center; EvUnlock],
   if decide (center <= 0)%Z then Panic (VString "invalid argument to Int63n")
   else Ok (Duration_of (math_Abs (float64_of (wrap64 (center + draw center)))))).
Proof.
  unfold rand, randDuration, call_with, bind, emit, defer, Int63n, ret, panic.
  cbn [stack st]. destruct (decide (center <= 0)%Z); unfold bind, emit;
    cbn [run_defers stack st]; by rewrite <- !app_assoc.
Qed.

(** X19: [randDuration] takes the mutex of the random source, asks the
    source once, and gives the mutex back as its last act on every path:
    also when [rnd.Int63n] panics, which it does exactly for a centre that
    is not positive. *)
Theorem randDuration_releases_mutex (center : Z) (s : list event) :
  fst (rand center s) = s ++ [EvLock; EvInt63n center; EvUnlock] /\
  (snd (rand center s) = Panic (VString "invalid argument to Int63n") <->
   (center <= 0)%Z) /\
  ((0 < center)%Z -> exists d, snd (rand center s) = Ok d).
Proof.
  rewrite randDuration_run. cbn [fst snd]. split; [done|].
  destruct (decide (center <= 0)%Z); split; try done; try lia; eauto.
Qed.

(** X20: [JitterBackoff] panics exactly when half of the capped backoff,
    as a duration, is not positive, the mutex being released all the same;
    in every other case it returns, and never less than [min]. *)
Theorem JitterBackoff_floor (min max attempt : Z) (s : list event) :
  fst (backoff min max attempt s) =
    s ++ [EvLock; EvInt63n (half min max attempt); EvUnlock] /\
  (snd (backoff min max attempt s) = Panic (VString "invalid argument to Int63n") <->
   (half min max attempt <= 0)%Z) /\
  ((0 < half min max attempt)%Z ->
   exists d, snd (backoff min max attempt s) = Ok d /\ (min <= d)%Z).
Proof.
  unfold backoff, JitterBackoff, bind. fold half rand. rewrite randDuration_run.
  destruct (decide (half min max attempt <= 0)%Z) as [Hle|Hgt]; cbn [fst snd ret].
  - split; [done|]. split; [done|]. intros Hpos. lia.
  - split; [done|]. split; [split; [done|lia]|]. intros _.
    eexists. split; [done|]. case_decide; lia.
Qed.

(** X21: when the halved capped backoff [ri] is positive, the source
    draws within [0, ri), and the sum of the two is a duration that the
    conversion to [float64] and back returns as it is, [JitterBackoff]
    answers the larger of [min] and that sum: at least [min], and for a
    [min] up to [ri] a duration from [ri] up to, not including, twice
    [ri]. *)
Theorem JitterBackoff_window (min max attempt : Z) (s : list event) :
  let ri := half min max attempt in
  (0 < ri < 2 ^ 62)%Z ->
  (0 <= draw ri < ri)%Z ->
  Duration_of (math_Abs (float64_of (ri + draw ri))) = (ri + draw ri)%Z ->
  snd (backoff min max attempt s) = Ok (Z.max min (ri + draw ri)) /\
  ((min <= ri)%Z ->
   exists d, snd (backoff min max attempt s) = Ok d /\ (ri <= d < 2 * ri)%Z).
Proof.
  intros ri Hri Hdraw Hexact.
  assert (Hwrap : wrap64 (ri + draw ri) = (ri + draw ri)%Z).
  { unfold wrap64. rewrite Z.mod_small; lia. }
  assert (Hrun : snd (backoff min max attempt s) = Ok (Z.max min (ri + draw ri))).
  { unfold backoff, JitterBackoff, bind. fold half rand. fold ri.
    rewrite randDuration_run. destruct (decide (ri <= 0)%Z); [lia|].
    cbn [snd ret]. rewrite Hwrap, Hexact. f_equal. case_decide; lia. }
  split; [done|]. intros Hmin. eexists. split; [done|]. lia.
Qed.

End BackoffProps.

Lemma JitterBackoff_window_witness :
  snd (Backoff.demo_JitterBackoff 100 10000 3 []) = Ok 500%Z /\
  exists d, snd (Backoff.demo_JitterBackoff 100 10000 3 []) = Ok d /\ (400 <= d < 800)%Z.
Proof.
  destruct (JitterBackoff_window Backoff.demo_float64 Backoff.demo_Duration
              Backoff.demo_Exp2 Backoff.demo_Min PrimFloat.abs (fun n => n / 4)%Z
              100 10000 3 []) as (Hrun & Hwin).
  - vm_compute. split; reflexivity.
  - vm_compute. split; [discriminate|reflexivity].
  - vm_compute. reflexivity.
  - split; [exact Hrun|]. apply Hwin. vm_compute. discriminate.
Defined.

(** ** What the executor and [openFile] never do *)

Section Never.

Variable env : Env.

(** X22: an invocation of [ExecuteWithContext] acquires one context, and
    over the caller and every thread it leaves behind, whatever the route
    and the skip patterns, it enters the unit of work at most once and
    releases the context at most once: exactly when the work was entered. *)
Theorem context_released_iff_work_entered
    (fn : Task) (c : Context) (poolName : list string) :
  let s := fst (ExecuteWithContext env fn c poolName start) in
  count is_acquire (all_events s) = 1 /\
  count is_invoke (all_events s) <= 1 /\
  count is_release (all_events s) = count is_invoke (all_events s).
Proof.
  intros s. subst s. unfold all_events.
  pose proof (thread_shape env fn c poolName) as Hshape.
  rewrite ExecuteWithContext_threads in *. rewrite ExecuteWithContext_route.
  cbv zeta in *.
  assert (Hcases : forall th,
    ((exists skipped : bool,
        (if span_started env
         then first_match env (skipTracesEndpoints (config env)) (Path (request c)) = Ok skipped
         else skipped = false) /\
        th = (prelude env (detached env c) skipped ++
              work_events (fn (work_context env (detached env c))) ++
              epilogue env (fn (work_context env (detached env c)))
                       (work_context env (detached env c)), Ok tt)) \/
     (exists v, span_started env = true /\
        first_match env (skipTracesEndpoints (config env)) (Path (request c)) = Panic v /\
        (th = (prelude env (detached env c) false, Panic v) \/
         th = (prelude env (detached env c) false ++ recovery env None v, Ok tt)))) ->
    count is_acquire (fst th) = 0 /\
    count is_invoke (fst th) <= 1 /\
    count is_release (fst th) = count is_invoke (fst th)).
  { intros th [(skipped & _ & ->)|(v & Hspan & _ & [-> | ->])]; cbn [fst].
    - unfold epilogue.
      rewrite !count_app, !count_cons, !count_prelude, !count_work_events by done.
      destruct (finish _); rewrite ?count_recovery by done;
        destruct (span_started env), skipped, (SentryOn (config env));
        cbn; rewrite ?count_nil; repeat split; lia.
    - rewrite !count_prelude, Hspan by done. cbn. repeat split; lia.
    - rewrite !count_app, !count_prelude, !count_recovery, Hspan by done.
      cbn. rewrite !andb_false_r. repeat split; lia. }
  destruct (route env poolName) as [w|p|p e];
    cbn [fst events map concat] in *.
  - rewrite app_nil_r, !count_app.
    match goal with
    | |- context [count is_acquire (fst ?t)] =>
        destruct (Hcases t (Hshape t ltac:(left))) as (Ha & Hi & Hr)
    end.
    unfold trace in *. rewrite Ha, Hr. destruct w; count_events; repeat split; lia.
  - rewrite app_nil_r, !count_app.
    match goal with
    | |- context [count is_acquire (fst ?t)] =>
        destruct (Hcases t (Hshape t ltac:(left))) as (Ha & Hi & Hr)
    end.
    unfold trace in *. rewrite Ha, Hr. count_events. repeat split; lia.
  - rewrite app_nil_r, !count_cons, !count_recovery by done. cbn.
    rewrite !andb_false_r. repeat split; lia.
Qed.

End Never.

Section OpenFileProps.
Import Bean.

Variable os_Stat : string -> error.
Variable os_IsNotExist : error -> bool.
Variable os_MkdirAll : string -> Z -> error.
Variable os_OpenFile : string -> Z -> Z -> option string * error.
Variable filepath_Dir : string -> string.

Let open := openFile os_Stat os_IsNotExist os_MkdirAll os_OpenFile filepath_Dir.

(** X23: [openFile] looks at the path first and opens it, to create,
    read, write and append, only when the path is there or, being absent,
    its directory could be made; the directory is made for an absent path
    only.  When the look fails for another reason, or the directory cannot
    be made, it opens and creates nothing and answers that error with a nil
    file. *)
Theorem openFile_opens_last_or_not_at_all (path : string) :
  let opened := existsb is_open (fst (open path)) in
  (opened = true <->
   os_Stat path = None \/
   (os_IsNotExist (os_Stat path) = true /\
    os_MkdirAll (filepath_Dir path) mode_0764 = None)) /\
  (existsb is_mkdir (fst (open path)) = true <->
   os_Stat path <> None /\ os_IsNotExist (os_Stat path) = true) /\
  (opened = true ->
   last (fst (open path)) =
     Some (OpenFile path (Z.lor (Z.lor O_CREATE O_RDWR) O_APPEND) mode_0664) /\
   snd (open path) =
     os_OpenFile path (Z.lor (Z.lor O_CREATE O_RDWR) O_APPEND) mode_0664) /\
  (opened = false ->
   exists err, snd (open path) = (None, Some err) /\
     (os_Stat path = Some err \/ os_MkdirAll (filepath_Dir path) mode_0764 = Some err)).
Proof.
  unfold open, openFile.
  destruct (os_Stat path) as [e|] eqn:Hstat; cbn [fst snd].
  - destruct (os_IsNotExist (Some e)) eqn:Hne.
    + destruct (os_MkdirAll (filepath_Dir path) mode_0764) as [e'|] eqn:Hmk;
        cbn; repeat split; try done; try (intros [?|[? ?]]; done); eauto.
    + cbn. repeat split; try done; try (intros [?|[? ?]]; done);
        try (intros [? ?]; done); eauto.
  - cbn. repeat split; try done; eauto. by intros [? _].
Qed.

End OpenFileProps.
